(** * Session manager, login flow and navigation poller of the Dify mobile client

    A shallow embedding of [src/utils/auth.js] (class [Auth]), of the
    handlers of [src/components/auth/LoginScreen.js] and of the polling
    effect of [src/navigation/AppNavigator.js].

    The JavaScript code is asynchronous but single threaded; every handler
    is modelled as a computation in a state-and-exception monad over one
    [World] value that holds the AsyncStorage contents, the static fields
    of [Auth], the log of issued HTTP requests and the component state of
    the login screen and of the navigator.  [Logger] calls have no effect
    on any of these and are left out. *)

From Stdlib Require Import ZArith String.
From stdpp Require Import base option list strings gmap fin_maps.

Local Open Scope string_scope.
Local Open Scope list_scope.
Local Open Scope Z_scope.

(** ** Constants of [auth.js] *)

Module STORAGE_KEYS.
Definition AUTH_TOKEN : string := "auth_token".
Definition REFRESH_TOKEN : string := "refresh_token".
Definition INSTANCE_URL : string := "instance_url".
Definition INSTANCE_TYPE : string := "instance_type".
Definition API_PREFIX : string := "api_prefix".
Definition PUBLIC_API_PREFIX : string := "public_api_prefix".
Definition COOKIES : string := "auth_cookies".
Definition BASE_URL : string := "base_url".
End STORAGE_KEYS.

Module INSTANCE_TYPES.
Definition CLOUD : string := "cloud".
Definition CUSTOM : string := "custom".
End INSTANCE_TYPES.

Definition CLOUD_INSTANCE_URL : string := "https://cloud.dify.ai".

(** ** JavaScript values that the code handles *)

(** A value that is a string, or [null]/[undefined] ([None]). *)
Abbreviation jsstring := (option string).

(** [!!v] for a string-or-null value: the empty string is falsy. *)
Definition truthy (v : jsstring) : bool :=
  match v with
  | Some s => negb (String.eqb s "")
  | None => false
  end.

(** [v || d] where the result is used as a string. *)
Definition or_else (v : jsstring) (d : string) : string :=
  match v with
  | Some s => if String.eqb s "" then d else s
  | None => d
  end.

(** [s.includes(sub)]. *)
Definition includes (sub s : string) : bool :=
  match String.index 0 sub s with
  | Some _ => true
  | None => false
  end.

(** [s.startsWith(p)]. *)
Definition startsWith (p s : string) : bool := String.prefix p s.

Inductive JsError : Type :=
  | StorageError            (* a rejected AsyncStorage call *)
  | InvalidValueError       (* AsyncStorage refuses a null/undefined value *)
  | TypeError (msg : string)
  | ReferenceError (name : string)  (* the identifier [name] is not declared *)
  | NetworkError            (* fetch rejected *)
  | Error (msg : string)    (* [throw new Error(msg)] *)
  | SyntaxError.            (* atob / JSON.parse / response.json() / new URL *)

(** ** The platform: what the code asks of its environment *)

(** The body of an HTTP response as far as the code reads it:
    [data.access_token], [data.refresh_token], and [JSON.stringify(data)]. *)
Record Json : Type := mkJson {
  access_token : jsstring;
  refresh_token : jsstring;
  stringify : string;
}.

Record Response : Type := mkResponse {
  status : Z;
  json : option Json;      (* [None]: [response.json()] rejects, or is null *)
}.

(** [response.ok] *)
Definition ok (r : Response) : bool := (200 <=? status r) && (status r <=? 299).

Record Request : Type := mkRequest {
  method : string;
  url : string;
  authorization : jsstring;  (* the Authorization header *)
  payload : jsstring;        (* the field sent in the JSON body *)
}.

Inductive FetchResult : Type :=
  | Rejected                       (* network failure *)
  | Resolved (r : Response).

(** What [new URL(u)] exposes to the login screen. *)
Record URL : Type := mkURL {
  pathname : string;
  hostname : string;
  origin : string;
  searchParams_access_token : jsstring;
  searchParams_refresh_token : jsstring;
}.

(** [exp] claim of a token, as [JSON.parse(atob(token.split('.')[1])).exp]
    evaluates: the evaluation throws, or [exp] is not a number (the product
    with 1000 is NaN), or it is a number of seconds. *)
Inductive ExpClaim : Type :=
  | DecodeThrows
  | ExpNaN
  | Exp (seconds : Z).

Record Platform : Type := mkPlatform {
  (** the expiry claim carried by an access token *)
  jwt_exp : string -> ExpClaim;
  (** the server: the answer to a request, given the requests seen before *)
  http : list Request -> Request -> FetchResult;
  (** [new URL(u)]; [None] when the constructor throws *)
  url_parse : string -> option URL;
}.

(** ** State *)

(** The static fields of class [Auth]. *)
Record AuthFields : Type := mkAuth {
  isAuthenticated : bool;
  instanceUrl : string;
  instanceType : string;
  apiPrefix : string;
  publicApiPrefix : string;
  cookies : string;
  baseUrl : string;
}.

(** [useState]/[useRef] cells of [LoginScreen], with the alerts shown and
    the [navigation.replace] calls made. *)
Record LoginState : Type := mkLogin {
  showWebView : bool;
  showCustomDomain : bool;
  customDomain : string;
  webViewUrl : string;
  loginProcessed : bool;
  alerts : list string;
  replaced : list string;
}.

(** [useState] cells of [AppNavigator]. *)
Record NavState : Type := mkNav {
  isLoading : bool;
  nav_isAuthenticated : bool;
}.

Record World : Type := mkWorld {
  storage : gmap string string;   (* AsyncStorage *)
  storage_faults : list bool;     (* which of the coming AsyncStorage calls reject *)
  auth : AuthFields;
  clock : Z;                      (* Date.now(), in milliseconds *)
  fetched : list Request;         (* requests issued so far, oldest first *)
  login : LoginState;
  nav : NavState;
}.

Definition with_storage (f : gmap string string -> gmap string string) (w : World) : World :=
  mkWorld (f (storage w)) (storage_faults w) (auth w) (clock w) (fetched w) (login w) (nav w).
Definition with_faults (fs : list bool) (w : World) : World :=
  mkWorld (storage w) fs (auth w) (clock w) (fetched w) (login w) (nav w).
Definition with_auth (f : AuthFields -> AuthFields) (w : World) : World :=
  mkWorld (storage w) (storage_faults w) (f (auth w)) (clock w) (fetched w) (login w) (nav w).
Definition with_fetched (f : list Request -> list Request) (w : World) : World :=
  mkWorld (storage w) (storage_faults w) (auth w) (clock w) (f (fetched w)) (login w) (nav w).
Definition with_login (f : LoginState -> LoginState) (w : World) : World :=
  mkWorld (storage w) (storage_faults w) (auth w) (clock w) (fetched w) (f (login w)) (nav w).
Definition with_nav (f : NavState -> NavState) (w : World) : World :=
  mkWorld (storage w) (storage_faults w) (auth w) (clock w) (fetched w) (login w) (f (nav w)).

Definition set_isAuthenticated (b : bool) (a : AuthFields) : AuthFields :=
  mkAuth b (instanceUrl a) (instanceType a) (apiPrefix a) (publicApiPrefix a) (cookies a) (baseUrl a).
Definition set_instanceType (t : string) (a : AuthFields) : AuthFields :=
  mkAuth (isAuthenticated a) (instanceUrl a) t (apiPrefix a) (publicApiPrefix a) (cookies a) (baseUrl a).
Definition set_apiPrefix (p : string) (a : AuthFields) : AuthFields :=
  mkAuth (isAuthenticated a) (instanceUrl a) (instanceType a) p (publicApiPrefix a) (cookies a) (baseUrl a).
Definition set_publicApiPrefix (p : string) (a : AuthFields) : AuthFields :=
  mkAuth (isAuthenticated a) (instanceUrl a) (instanceType a) (apiPrefix a) p (cookies a) (baseUrl a).
Definition set_cookies (c : string) (a : AuthFields) : AuthFields :=
  mkAuth (isAuthenticated a) (instanceUrl a) (instanceType a) (apiPrefix a) (publicApiPrefix a) c (baseUrl a).
Definition set_baseUrl (u : string) (a : AuthFields) : AuthFields :=
  mkAuth (isAuthenticated a) (instanceUrl a) (instanceType a) (apiPrefix a) (publicApiPrefix a) (cookies a) u.

Definition set_showWebView (b : bool) (l : LoginState) : LoginState :=
  mkLogin b (showCustomDomain l) (customDomain l) (webViewUrl l) (loginProcessed l) (alerts l) (replaced l).
Definition set_customDomain (d : string) (l : LoginState) : LoginState :=
  mkLogin (showWebView l) (showCustomDomain l) d (webViewUrl l) (loginProcessed l) (alerts l) (replaced l).
Definition set_webViewUrl (u : string) (l : LoginState) : LoginState :=
  mkLogin (showWebView l) (showCustomDomain l) (customDomain l) u (loginProcessed l) (alerts l) (replaced l).
Definition set_loginProcessed (b : bool) (l : LoginState) : LoginState :=
  mkLogin (showWebView l) (showCustomDomain l) (customDomain l) (webViewUrl l) b (alerts l) (replaced l).
Definition add_alert (msg : string) (l : LoginState) : LoginState :=
  mkLogin (showWebView l) (showCustomDomain l) (customDomain l) (webViewUrl l) (loginProcessed l)
          (alerts l ++ [msg]) (replaced l).
Definition add_replaced (screen : string) (l : LoginState) : LoginState :=
  mkLogin (showWebView l) (showCustomDomain l) (customDomain l) (webViewUrl l) (loginProcessed l)
          (alerts l) (replaced l ++ [screen]).

(** The static initialisers of [Auth] (lines 41-47). *)
Definition Auth_defaults : AuthFields :=
  mkAuth false CLOUD_INSTANCE_URL "" "" "" "" "".

(** The initial [useState]/[useRef] values of [LoginScreen]. *)
Definition LoginScreen_initial : LoginState :=
  mkLogin false false "" "" false [] [].

Definition AppNavigator_initial : NavState := mkNav true false.

(** A freshly started process over given storage contents. *)
Definition start (st : gmap string string) (faults : list bool) (now : Z) : World :=
  mkWorld st faults Auth_defaults now [] LoginScreen_initial AppNavigator_initial.

(** ** The monad of handlers: state plus exceptions *)

Inductive Outcome (A : Type) : Type :=
  | Ok (a : A)
  | Throw (e : JsError).
Arguments Ok {A} a.
Arguments Throw {A} e.

Definition M (A : Type) : Type := World -> Outcome A * World.

Definition ret {A} (a : A) : M A := fun w => (Ok a, w).
Definition throw {A} (e : JsError) : M A := fun w => (Throw e, w).
Definition bind {A B} (m : M A) (k : A -> M B) : M B :=
  fun w => match m w with
           | (Ok a, w') => k a w'
           | (Throw e, w') => (Throw e, w')
           end.
(** [try { m } catch (error) { h error }]: the state changes made by [m]
    before it threw stay. *)
Definition try_catch {A} (m : M A) (h : JsError -> M A) : M A :=
  fun w => match m w with
           | (Ok a, w') => (Ok a, w')
           | (Throw e, w') => h e w'
           end.
(** [try { m } finally { f }]. *)
Definition try_finally {A} (m : M A) (f : M unit) : M A :=
  fun w => match m w with
           | (r, w') => match f w' with
                        | (Ok _, w'') => (r, w'')
                        | (Throw e, w'') => (Throw e, w'')
                        end
           end.
(** [Promise.all([m1, m2])]: both are started, so the second runs even when
    the first rejects; the result rejects with the first rejection. *)
Definition Promise_all2 {A B} (m1 : M A) (m2 : M B) : M (A * B) :=
  fun w => match m1 w with
           | (r1, w1) =>
             match m2 w1 with
             | (r2, w2) =>
               match r1, r2 with
               | Ok a, Ok b => (Ok (a, b), w2)
               | Throw e, _ => (Throw e, w2)
               | Ok _, Throw e => (Throw e, w2)
               end
             end
           end.
Definition modify (f : World -> World) : M unit := fun w => (Ok tt, f w).
Definition gets {A} (f : World -> A) : M A := fun w => (Ok (f w), w).
Definition when (b : bool) (m : M unit) : M unit := if b then m else ret tt.

Declare Scope js_scope.
Delimit Scope js_scope with js.
Notation "x <- m ;; k" := (bind m (fun x => k))
  (at level 20, m at level 99, k at level 200, only parsing) : js_scope.
Notation "' p <- m ;; k" := (bind m (fun x => match x with p => k end))
  (at level 20, p pattern, m at level 99, k at level 200, only parsing) : js_scope.
Notation "m ;; k" := (bind m (fun _ => k))
  (at level 100, k at level 200, only parsing, right associativity) : js_scope.
Local Open Scope js_scope.

(** ** AsyncStorage *)

Module AsyncStorage.
(** Every call first learns from the fault script whether it rejects. *)
Definition faulty : M bool :=
  fun w => match storage_faults w with
           | [] => (Ok false, w)
           | b :: fs => (Ok b, with_faults fs w)
           end.

(** What the library's [getItem] resolves to for an entry of the store: it
    unpacks the native answer with [value ? value : null], so a missing
    entry and a stored empty string both resolve to null. *)
Definition resolved (entry : option string) : jsstring :=
  match entry with
  | Some s => if String.eqb s "" then None else Some s
  | None => None
  end.

Definition getItem (key : string) : M jsstring :=
  f <- faulty ;;
  if f then throw StorageError else gets (fun w => resolved (storage w !! key)).

(** A null or undefined value is refused before the store is touched. *)
Definition setItem (key : string) (value : jsstring) : M unit :=
  match value with
  | None => throw InvalidValueError
  | Some v =>
      f <- faulty ;;
      if f then throw StorageError else modify (with_storage (insert key v))
  end.

(** One call; a rejected call removes nothing. *)
Definition multiRemove (keys : list string) : M unit :=
  f <- faulty ;;
  if f then throw StorageError
  else modify (with_storage (fun st => foldr delete st keys)).
End AsyncStorage.

(** [fetch]: the request is logged, then the server answers. *)
Definition fetch (P : Platform) (req : Request) : M Response :=
  fun w => match http P (fetched w) req with
           | Rejected => (Throw NetworkError, with_fetched (fun l => l ++ [req]) w)
           | Resolved r => (Ok r, with_fetched (fun l => l ++ [req]) w)
           end.

(** [await response.json()] *)
Definition response_json (r : Response) : M Json :=
  match json r with
  | Some d => ret d
  | None => throw SyntaxError
  end.

(** ** [class Auth] of [src/utils/auth.js] *)

Module Auth.
Section WithPlatform.
Context (P : Platform).
Import STORAGE_KEYS.

(** The keys that [logout] removes (lines 235-246). *)
Definition logout_keys : list string :=
  [AUTH_TOKEN; REFRESH_TOKEN; INSTANCE_URL; INSTANCE_TYPE; API_PREFIX;
   PUBLIC_API_PREFIX; COOKIES; BASE_URL; "apps"; "isAuthenticated"].

(** Lines 247-252: [instanceUrl] is not among the fields reset. *)
Definition logout_fields (a : AuthFields) : AuthFields :=
  mkAuth false (instanceUrl a) "" "" "" "" "".

Definition logout : M unit :=
  try_catch
    (AsyncStorage.multiRemove logout_keys ;;
     modify (with_auth logout_fields))
    (fun error => throw error).

Definition setApiPrefix (apiPrefix : string) (publicApiPrefix : jsstring) : M unit :=
  try_catch
    (Promise_all2
       (AsyncStorage.setItem API_PREFIX (Some apiPrefix))
       (AsyncStorage.setItem PUBLIC_API_PREFIX (Some (or_else publicApiPrefix apiPrefix))) ;;
     modify (with_auth (set_apiPrefix apiPrefix)) ;;
     modify (with_auth (set_publicApiPrefix (or_else publicApiPrefix apiPrefix))))
    (fun error => throw error).

Definition getApiPrefix : M string :=
  a <- gets (fun w => apiPrefix (auth w)) ;;
  when (String.eqb a "")
       (modify (with_auth (set_apiPrefix (CLOUD_INSTANCE_URL +:+ "/console/api")))) ;;
  gets (fun w => apiPrefix (auth w)).

Definition getPublicApiPrefix : M string :=
  gets (fun w => or_else (Some (publicApiPrefix (auth w)))
                         (or_else (Some (apiPrefix (auth w))) "")).

Definition setAuthTokens (accessToken refreshToken : jsstring) : M unit :=
  try_catch
    (Promise_all2
       (AsyncStorage.setItem AUTH_TOKEN accessToken)
       (AsyncStorage.setItem REFRESH_TOKEN refreshToken) ;;
     modify (with_auth (set_isAuthenticated true)))
    (fun error => throw error).

(** The request of lines 151-159. *)
Definition refresh_request (apiPrefix refreshToken : string) : Request :=
  mkRequest "POST" (apiPrefix +:+ "/oauth/token/refresh") None (Some refreshToken).

Definition refreshAuthToken (refreshToken : string) : M bool :=
  try_catch
    (prefix <- gets (fun w => apiPrefix (auth w)) ;;
     response <- fetch P (refresh_request prefix refreshToken) ;;
     when (negb (ok response)) (throw (Error "Failed to refresh token")) ;;
     data <- response_json response ;;
     setAuthTokens (access_token data) (refresh_token data) ;;
     ret true)
    (fun error => logout ;; ret false).

Definition setCookies (cookieString : jsstring) : M unit :=
  try_catch
    (AsyncStorage.setItem COOKIES cookieString ;;
     modify (with_auth (set_cookies (default "" cookieString))) ;;
     modify (with_auth (set_isAuthenticated true)))
    (fun error => throw error).

Definition getCookies : M string :=
  gets (fun w => cookies (auth w)).

Definition getInstanceType : M string :=
  try_catch
    (type <- AsyncStorage.getItem INSTANCE_TYPE ;;
     ret (or_else type ""))
    (fun error => ret "").

Definition setInstanceType (type : string) : M unit :=
  try_catch
    (AsyncStorage.setItem INSTANCE_TYPE (Some type) ;;
     modify (with_auth (set_instanceType type)))
    (fun error => ret tt).

Definition getBaseUrl : M string :=
  try_catch
    (baseUrl <- AsyncStorage.getItem BASE_URL ;;
     ret (or_else baseUrl ""))
    (fun error => ret "").

Definition setBaseUrl (url : string) : M unit :=
  try_catch
    (AsyncStorage.setItem BASE_URL (Some url) ;;
     modify (with_auth (set_baseUrl url)))
    (fun error => ret tt).

(** Lines 84-87: is the token's expiry at or before [Date.now()]?  A NaN
    expiry compares false. *)
Definition token_expired (token : string) : M bool :=
  match jwt_exp P token with
  | DecodeThrows => throw SyntaxError
  | ExpNaN => ret false
  | Exp seconds => now <- gets clock ;; ret (seconds * 1000 <=? now)
  end.

Definition initialize : M bool :=
  try_catch
    ('(token, (refreshToken, (url, (type, (apiPrefix, (publicApiPrefix, (cookies, baseUrl)))))))
       <- Promise_all2 (AsyncStorage.getItem AUTH_TOKEN)
         (Promise_all2 (AsyncStorage.getItem REFRESH_TOKEN)
         (Promise_all2 (AsyncStorage.getItem INSTANCE_URL)
         (Promise_all2 (AsyncStorage.getItem INSTANCE_TYPE)
         (Promise_all2 (AsyncStorage.getItem API_PREFIX)
         (Promise_all2 (AsyncStorage.getItem PUBLIC_API_PREFIX)
         (Promise_all2 (AsyncStorage.getItem COOKIES)
                       (AsyncStorage.getItem BASE_URL))))))) ;;
     modify (with_auth (fun _ =>
       mkAuth (truthy token && truthy cookies)
              (or_else url CLOUD_INSTANCE_URL)
              (or_else type INSTANCE_TYPES.CLOUD)
              (or_else apiPrefix "")
              (or_else publicApiPrefix "")
              (or_else cookies "")
              (or_else baseUrl ""))) ;;
     when (truthy token)
       (try_catch
          (expired <- token_expired (default "" token) ;;
           when expired
             (if truthy refreshToken
              then refreshAuthToken (default "" refreshToken) ;; ret tt
              else logout))
          (fun error => logout)) ;;
     gets (fun w => isAuthenticated (auth w)))
    (fun error => ret false).

Definition checkAuthState : M bool :=
  stored <- AsyncStorage.getItem "isAuthenticated" ;;
  match stored with
  | Some s => modify (with_auth (set_isAuthenticated (String.eqb s "true")))
  | None => ret tt
  end ;;
  gets (fun w => isAuthenticated (auth w)).

Definition setIsAuthenticated (value : bool) : M unit :=
  modify (with_auth (set_isAuthenticated value)) ;;
  AsyncStorage.setItem "isAuthenticated" (Some (if value then "true" else "false")).

(** Lines 273-276: a synchronous method; it reads nothing of the state. *)
Definition getSignInUrl (w : World) : string :=
  CLOUD_INSTANCE_URL +:+ "/signin".

Definition getToken : M jsstring :=
  try_catch
    (token <- AsyncStorage.getItem AUTH_TOKEN ;;
     ret token)
    (fun error => ret None).

End WithPlatform.
End Auth.

(** ** Handlers of [src/components/auth/LoginScreen.js] *)

(** The parsed payload of an in-page message of the embedded browser. *)
Inductive WebViewMessage : Type :=
  | COOKIES (cookies : jsstring)
  | API_PREFIX (apiPrefix publicApiPrefix : jsstring)
  | OtherMessage (type : string).

Module LoginScreen.
Section WithPlatform.
Context (P : Platform).

Definition alert (msg : string) : M unit := modify (with_login (add_alert msg)).

Definition handleCloudLogin : M unit :=
  try_catch
    (Auth.setInstanceType INSTANCE_TYPES.CLOUD ;;
     signInUrl <- gets Auth.getSignInUrl ;;
     modify (with_login (set_webViewUrl signInUrl)) ;;
     modify (with_login (set_showWebView true)))
    (fun error => alert "Failed to start login process").

(** Lines 85-87. *)
Definition custom_domain_url (customDomain : string) : string :=
  if startsWith "http" customDomain then customDomain
  else "https://" +:+ customDomain.

(** Line 89 passes [domain] as a second argument, but
    [Auth.setInstanceType] has one parameter: the argument is dropped. *)
Definition handleCustomLogin : M unit :=
  customDomain <- gets (fun w => customDomain (login w)) ;;
  if String.eqb customDomain "" then
    alert "Please enter your Dify instance domain"
  else
    try_catch
      (let domain := custom_domain_url customDomain in
       Auth.setInstanceType INSTANCE_TYPES.CUSTOM ;;
       signInUrl <- gets Auth.getSignInUrl ;;
       modify (with_login (set_webViewUrl signInUrl)) ;;
       modify (with_login (set_showWebView true)))
      (fun error => alert "Failed to start login process").

(** Line 113 calls [Auth.setApiPrefixes].  Class [Auth] has no member of
    that name (its setter is [setApiPrefix]): the property is [undefined]
    and the call throws a TypeError. *)
Definition Auth_setApiPrefixes (apiPrefix publicApiPrefix : jsstring) : M unit :=
  throw (TypeError "Auth.setApiPrefixes is not a function").

Definition handleWebViewMessage (data : WebViewMessage) : M unit :=
  try_catch
    match data with
    | COOKIES cookieString =>
        try_catch (Auth.setCookies cookieString) (fun error => ret tt)
    | API_PREFIX apiPrefix publicApiPrefix =>
        try_catch (Auth_setApiPrefixes apiPrefix publicApiPrefix) (fun error => ret tt)
    | OtherMessage _ => ret tt
    end
    (fun error => ret tt).

(** [new URL(url)] *)
Definition new_URL (url : string) : M URL :=
  match url_parse P url with
  | Some u => ret u
  | None => throw SyntaxError
  end.

(** The readiness request of lines 166-172; a null token is interpolated
    as the text null. *)
Definition apps_request (apiPrefix : string) (accessToken : jsstring) : Request :=
  mkRequest "GET" (apiPrefix +:+ "/apps")
            (Some ("Bearer " +:+ default "null" accessToken)) None.

(** Lines 136-188, repeated verbatim at lines 194-246. *)
Definition complete_login (url : string) : M unit :=
  try_catch
    (urlObj <- new_URL url ;;
     let accessToken := searchParams_access_token urlObj in
     let refreshToken := searchParams_refresh_token urlObj in
     when (truthy accessToken)
       (AsyncStorage.setItem "auth_token" accessToken ;;
        when (truthy refreshToken)
          (AsyncStorage.setItem "refresh_token" refreshToken) ;;
        let isCloud := String.eqb (hostname urlObj) "cloud.dify.ai" in
        let instanceType := if isCloud then INSTANCE_TYPES.CLOUD else INSTANCE_TYPES.CUSTOM in
        let baseUrl := origin urlObj in
        Auth.setInstanceType instanceType ;;
        Auth.setBaseUrl baseUrl) ;;
     apiPrefix <- Auth.getApiPrefix ;;
     response <- fetch P (apps_request apiPrefix accessToken) ;;
     when (negb (ok response)) (throw (Error "Failed to fetch apps")) ;;
     apps <- response_json response ;;
     Auth.setIsAuthenticated true ;;
     modify (with_login (set_showWebView false)) ;;
     AsyncStorage.setItem "apps" (Some (stringify apps)) ;;
     modify (with_login (add_replaced "Login")))
    (fun error => alert "Failed to complete login process").

Definition handleWebViewNavigation (navState_url : jsstring) : M unit :=
  try_catch
    (when (truthy navState_url)
       (let url := default "" navState_url in
        try_catch
          (parsedUrl <- new_URL url ;;
           when (String.eqb (pathname parsedUrl) "/apps")
             (processed <- gets (fun w => loginProcessed (login w)) ;;
              if processed then ret tt
              else
                modify (with_login (set_loginProcessed true)) ;;
                complete_login url))
          (fun urlError =>
             processed <- gets (fun w => loginProcessed (login w)) ;;
             when (includes "/apps" url && negb processed)
               (modify (with_login (set_loginProcessed true)) ;;
                complete_login url))))
    (fun error => ret tt).

End WithPlatform.
End LoginScreen.

(** ** The effects of [src/navigation/AppNavigator.js] *)

Module AppNavigator.
(** Lines 73-86: the check made on mount. *)
Definition mount : M unit :=
  try_finally
    (try_catch
       (isAuth <- Auth.checkAuthState ;;
        modify (with_nav (fun n => mkNav (isLoading n) isAuth)))
       (fun error => ret tt))
    (modify (with_nav (fun n => mkNav false (nav_isAuthenticated n)))).

(** Lines 89-93: one firing of the interval callback. *)
Definition poll : M unit :=
  isAuth <- Auth.checkAuthState ;;
  modify (with_nav (fun n => mkNav (isLoading n) isAuth)).

(** Line 104: which surface the navigator renders. *)
Definition shows_login (w : World) : bool := negb (nav_isAuthenticated (nav w)).
End AppNavigator.

(** Lines 671-674 of [src/components/app/AppSetupScreen.js]: the API root
    used for an app of the current instance. *)
Module AppSetupScreen.
Definition apiUrl : M string :=
  instanceType <- Auth.getInstanceType ;;
  if String.eqb instanceType "cloud" then ret "https://api.dify.ai/v1"
  else Auth.getPublicApiPrefix.
End AppSetupScreen.

(** ** Running handlers *)

Definition result {A} (m : M A) (w : World) : Outcome A := fst (m w).
Definition after {A} (m : M A) (w : World) : World := snd (m w).

(** A platform for concrete runs: tokens never decode, the network is
    down, no URL parses. *)
Definition offline : Platform :=
  mkPlatform (fun _ => DecodeThrows) (fun _ _ => Rejected) (fun _ => None).

(** ** [AppListScreen] of [src/components/app/AppSetupScreen.js] (lines 584-743) *)

(** What a press on an app ends in; the [useState] setters and the
    navigation call of the handler are its result. *)
Inductive AppPress : Type :=
  | AskApiKey (appId : string)                   (* the API-key modal is shown for the app *)
  | OpenWelcome (apiUrl appId appKey : string).  (* [navigation.navigate('Welcome', ...)] *)

Module AppListScreen.
Section WithPlatform.
Context (P : Platform).

(** The storage key of the API key of an app (lines 648 and 727). *)
Definition api_key_storage (appId : string) : string :=
  "app_" +:+ appId +:+ "_api_key".

(** The probe of lines 715-719; [fetch] defaults to GET. *)
Definition parameters_request (apiUrl apiKey : string) : Request :=
  mkRequest "GET" (apiUrl +:+ "/parameters") (Some ("Bearer " +:+ apiKey)) None.

Definition validateApiKey (appId apiKey : string) : M bool :=
  try_catch
    (when (negb (startsWith "app-" apiKey))
       (throw (Error "Invalid API key format")) ;;
     when (String.length apiKey <? 20)%nat
       (throw (Error "Invalid API key length")) ;;
     apiUrl <- AppSetupScreen.apiUrl ;;
     response <- fetch P (parameters_request apiUrl apiKey) ;;
     when (negb (ok response)) (throw (Error "API key validation failed")) ;;
     try_catch
       (AsyncStorage.setItem (api_key_storage appId) (Some apiKey) ;;
        ret true)
       (fun storageError => ret false))
    (fun error => ret false).

(** Lines 645-693.  The catch block calls [Alert.alert], and this file
    does not import [Alert] (lines 568-582): evaluating the identifier
    throws, so the handler rejects instead of showing the alert. *)
Definition handleAppPress (appId : string) : M AppPress :=
  try_catch
    (storedApiKey <- AsyncStorage.getItem (api_key_storage appId) ;;
     if negb (truthy storedApiKey) then ret (AskApiKey appId)
     else
       isValid <- validateApiKey appId (default "" storedApiKey) ;;
       if negb isValid then ret (AskApiKey appId)
       else
         apiUrl <- AppSetupScreen.apiUrl ;;
         ret (OpenWelcome apiUrl appId (default "" storedApiKey)))
    (fun error => throw (ReferenceError "Alert")).

End WithPlatform.
End AppListScreen.

(** ** [src/components/account/AccountScreen.js] *)

(** The value given to [setAccountInfo]. *)
Record AccountInfo : Type := mkAccountInfo {
  info_baseUrl : string;
  info_instanceType : string;
  info_apiUrl : string;
  info_publicApiUrl : string;
}.

(** What the confirmed logout ends in. *)
Inductive LogoutPress : Type :=
  | WentToLogin       (* [navigation.replace('Login')] *)
  | LogoutFailed.     (* the alert of line 111 *)

Module AccountScreen.

(** Lines 63-92; [None] when the catch branch is taken and the account
    information stays as it was. *)
Definition loadAccountInfo : M (option AccountInfo) :=
  try_catch
    ('(baseUrl, (instanceType, (apiPrefix, publicApiPrefix)))
       <- Promise_all2 Auth.getBaseUrl
         (Promise_all2 Auth.getInstanceType
         (Promise_all2 Auth.getApiPrefix Auth.getPublicApiPrefix)) ;;
     let apiUrl := if String.eqb instanceType "cloud"
                   then "https://api.dify.ai/v1" else publicApiPrefix in
     ret (Some (mkAccountInfo (or_else (Some baseUrl) "Unknown")
                              (or_else (Some instanceType) "Unknown")
                              (or_else (Some apiUrl) "Unknown")
                              (or_else (Some publicApiPrefix) "Unknown"))))
    (fun error => ret None).

(** Lines 105-113: the handler of the Logout button of the dialog. *)
Definition logoutPressed : M LogoutPress :=
  try_catch
    (Auth.logout ;;
     ret WentToLogin)
    (fun error => ret LogoutFailed).

End AccountScreen.

(** ** Onboarding: [OnboardingScreen.js] and the root component *)

Module OnboardingScreen.
(** Lines 16-19; the result is the screen given to [navigation.replace]. *)
Definition handleSkip : M string :=
  AsyncStorage.setItem "hasOnboarded" (Some "true") ;;
  ret "AppList".
End OnboardingScreen.

Module App.
(** [checkOnboardingStatus] of the root component; the result is the
    [hasOnboarded] state after it, which starts as false. *)
Definition checkOnboardingStatus : M bool :=
  try_catch
    (status <- AsyncStorage.getItem "hasOnboarded" ;;
     ret (bool_decide (status = Some "true")))
    (fun error => ret false).

(** The initial route of the navigator. *)
Definition initialRouteName (hasOnboarded : bool) : string :=
  if hasOnboarded then "AppList" else "Onboarding".
End App.

(** * Vocabulary of the properties, and concrete states and platforms *)

(** What [logout] leaves when the store works. *)
Definition logged_out (w : World) : World :=
  with_auth Auth.logout_fields
    (with_storage (fun st => foldr delete st Auth.logout_keys) w).

(** A logged-in session over a populated store. *)
Definition signed_in : World :=
  mkWorld
    (<["auth_token" := "t.t.t"]> (<["refresh_token" := "r"]>
      (<["auth_cookies" := "sid=1"]> (<["isAuthenticated" := "true"]>
      (<["api_prefix" := "https://x/console/api"]> ∅)))))
    []
    (mkAuth true CLOUD_INSTANCE_URL "cloud" "https://x/console/api" "" "sid=1" "")
    0 [] LoginScreen_initial AppNavigator_initial.

(** What [checkAuthState] answers: the persisted ['isAuthenticated'] key
    when the store reports one, the in-memory flag otherwise. *)
Definition auth_flag (w : World) : bool :=
  match AsyncStorage.resolved (storage w !! "isAuthenticated") with
  | Some s => String.eqb s "true"
  | None => isAuthenticated (auth w)
  end.

(** The flag is persisted but neither a token nor cookies are stored. *)
Definition flag_only : World :=
  start (<["isAuthenticated" := "true"]> ∅) [] 0.

(** The two sessions that the login screen configures in a freshly
    started app: the one of the cloud login, and the one of the custom
    login with the domain [dify.example.com] entered. *)
Definition cloud_session : World :=
  after LoginScreen.handleCloudLogin (start ∅ [] 0).
Definition custom_session : World :=
  after LoginScreen.handleCustomLogin
    (with_login (set_customDomain "dify.example.com") (start ∅ [] 0)).

(** The answer of the server to the refresh request made in state [w]. *)
Definition refresh_response (P : Platform) (w : World) (refreshToken : string) : FetchResult :=
  http P (fetched w) (Auth.refresh_request (apiPrefix (auth w)) refreshToken).

(** The request has been issued. *)
Definition requested (req : Request) (w : World) : World :=
  with_fetched (fun l => l ++ [req]) w.

(** A server that accepts every refresh, and one that answers 401. *)
Definition accepting : Platform :=
  mkPlatform (fun _ => Exp 0)
    (fun _ _ => Resolved (mkResponse 200 (Some (mkJson (Some "abc") (Some "def") "{}"))))
    (fun _ => None).
Definition refusing : Platform :=
  mkPlatform (fun _ => Exp 0)
    (fun _ _ => Resolved (mkResponse 401 None))
    (fun _ => None).

(** The calls that other modules make on [Auth]. *)
Inductive AuthCall : Type :=
  | CallInitialize
  | CallSetApiPrefix (apiPrefix : string) (publicApiPrefix : jsstring)
  | CallGetApiPrefix
  | CallSetAuthTokens (accessToken refreshToken : jsstring)
  | CallRefreshAuthToken (refreshToken : string)
  | CallSetCookies (cookieString : jsstring)
  | CallSetInstanceType (type : string)
  | CallSetBaseUrl (url : string)
  | CallLogout
  | CallCheckAuthState
  | CallSetIsAuthenticated (value : bool).

Definition call (P : Platform) (c : AuthCall) (w : World) : World :=
  match c with
  | CallInitialize => after (Auth.initialize P) w
  | CallSetApiPrefix a p => after (Auth.setApiPrefix a p) w
  | CallGetApiPrefix => after Auth.getApiPrefix w
  | CallSetAuthTokens a r => after (Auth.setAuthTokens a r) w
  | CallRefreshAuthToken r => after (Auth.refreshAuthToken P r) w
  | CallSetCookies c => after (Auth.setCookies c) w
  | CallSetInstanceType t => after (Auth.setInstanceType t) w
  | CallSetBaseUrl u => after (Auth.setBaseUrl u) w
  | CallLogout => after Auth.logout w
  | CallCheckAuthState => after Auth.checkAuthState w
  | CallSetIsAuthenticated b => after (Auth.setIsAuthenticated b) w
  end.

(** The states of the session manager: a process starts over some stored
    contents with the static defaults, then calls are made. *)
Inductive reachable (P : Platform) : World -> Prop :=
  | reachable_start st faults now : reachable P (start st faults now)
  | reachable_call w c : reachable P w -> reachable P (call P c w).

(** The invariant of the data model: authenticated only with a stored
    access token. *)
Definition authenticated_has_token (w : World) : Prop :=
  isAuthenticated (auth w) = true -> is_Some (storage w !! "auth_token").

(** A computation that only reads the store: it may use up fault flags,
    and either rejects or answers [f] of the stored contents. *)
Definition reads {A} (m : M A) (f : gmap string string -> A) : Prop :=
  forall w, exists fs,
    after m w = with_faults fs w /\
    (result m w = Ok (f (storage w)) \/ exists e, result m w = Throw e).

(** The token carries an expiry in the future, or none that is a number. *)
Definition unexpired (P : Platform) (w : World) (token : string) : Prop :=
  jwt_exp P token = ExpNaN \/
  exists seconds, jwt_exp P token = Exp seconds /\ clock w < seconds * 1000.

(** The token carries an expiry at or before the current time. *)
Definition expired (P : Platform) (w : World) (token : string) : Prop :=
  exists seconds, jwt_exp P token = Exp seconds /\ seconds * 1000 <= clock w.

(** The server answers 2xx with a new pair of tokens. *)
Definition accepted (fr : FetchResult) : Prop :=
  exists resp d a r,
    fr = Resolved resp /\ ok resp = true /\
    json resp = Some d /\ access_token d = Some a /\ refresh_token d = Some r.

(** The answer to the refresh request that [initialize] makes with the
    stored refresh token [rt]: the prefix is the stored one. *)
Definition initialize_refresh (P : Platform) (w : World) (rt : string) : FetchResult :=
  http P (fetched w) (Auth.refresh_request (or_else (storage w !! "api_prefix") "") rt).

(** A store that holds an expired access token and a refresh token, and
    no cookies. *)
Definition no_cookies : World :=
  start (<["auth_token" := "t.t.t"]> (<["refresh_token" := "r"]> ∅)) [] 1.

(** Tokens that expire in the year 2100; no network. *)
Definition live : Platform :=
  mkPlatform (fun _ => Exp 4102444800) (fun _ _ => Rejected) (fun _ => None).

(** The event carries an absolute URL whose path is the landing path. *)
Definition landing (P : Platform) (navState_url : jsstring) : bool :=
  truthy navState_url &&
  match url_parse P (default "" navState_url) with
  | Some u => String.eqb (pathname u) "/apps"
  | None => false
  end.

(** The event does not report the landing path in a form that [new URL]
    rejects: it carries no URL, or one that parses, or one in which
    [/apps] does not occur. *)
Definition reported_whole (P : Platform) (navState_url : jsstring) : Prop :=
  truthy navState_url = true ->
  url_parse P (default "" navState_url) = None ->
  includes "/apps" (default "" navState_url) = false.

(** The navigation events of the embedded browser, handled in order. *)
Definition navigate (P : Platform) (events : list jsstring) (w : World) : World :=
  foldl (fun w e => after (LoginScreen.handleWebViewNavigation P e) w) w events.

Definition landings (P : Platform) (events : list jsstring) : nat :=
  length (List.filter (landing P) events).

(** The prefix that [getApiPrefix()] answers in state [w]. *)
Definition current_apiPrefix (w : World) : string :=
  if String.eqb (apiPrefix (auth w)) "" then CLOUD_INSTANCE_URL +:+ "/console/api"
  else apiPrefix (auth w).

(** The cloud redirect of a completed login, and a server that lists no
    apps. *)
Definition redirect : string :=
  "https://cloud.dify.ai/apps?access_token=abc&refresh_token=def".
Definition cloud : Platform :=
  mkPlatform (fun _ => Exp 4102444800)
    (fun _ _ => Resolved (mkResponse 200 (Some (mkJson None None "[]"))))
    (fun u => if String.eqb u redirect
              then Some (mkURL "/apps" "cloud.dify.ai" "https://cloud.dify.ai"
                               (Some "abc") (Some "def"))
              else None).

(** A computation that issues no request and leaves the one-shot guard
    as it is. *)
Definition silent {A} (m : M A) : Prop :=
  forall w, fetched (after m w) = fetched w /\
            loginProcessed (login (after m w)) = loginProcessed (login w).

(** A computation that issues at most one request and leaves the guard. *)
Definition at_most_one {A} (m : M A) : Prop :=
  forall w, (fetched (after m w) = fetched w \/
             exists req, fetched (after m w) = fetched w ++ [req]) /\
            loginProcessed (login (after m w)) = loginProcessed (login w).

(** The process is started again over what is stored: the static fields
    and the component state are the initial ones. *)
Definition restart (w : World) : World :=
  start (storage w) [] (clock w).

(** The fields that [initialize] loads from a store (lines 73-79). *)
Definition loaded_fields (st : gmap string string) : AuthFields :=
  mkAuth (truthy (st !! "auth_token") && truthy (st !! "auth_cookies"))
         (or_else (st !! "instance_url") CLOUD_INSTANCE_URL)
         (or_else (st !! "instance_type") "cloud")
         (or_else (st !! "api_prefix") "")
         (or_else (st !! "public_api_prefix") "")
         (or_else (st !! "auth_cookies") "")
         (or_else (st !! "base_url") "").

(** What [initialize] does on a working store, case by case: the fields
    are loaded; a token that does not decode, or an expired one without
    refresh token, ends in [logout]; an expired one with a refresh token
    ends in [refreshAuthToken]. *)
Definition initialized (P : Platform) (w : World) : Outcome bool * World :=
  let w1 := with_auth (fun _ => loaded_fields (storage w)) w in
  if truthy (storage w !! "auth_token") then
    match jwt_exp P (default "" (storage w !! "auth_token")) with
    | DecodeThrows => (Ok false, logged_out w1)
    | ExpNaN => (Ok (isAuthenticated (auth w1)), w1)
    | Exp seconds =>
        if seconds * 1000 <=? clock w then
          if truthy (storage w !! "refresh_token") then
            let w2 := after (Auth.refreshAuthToken P (default "" (storage w !! "refresh_token"))) w1 in
            (Ok (isAuthenticated (auth w2)), w2)
          else (Ok false, logged_out w1)
        else (Ok (isAuthenticated (auth w1)), w1)
    end
  else (Ok (isAuthenticated (auth w1)), w1).

(** [initialize] will ask the server for new tokens: a non-empty token is
    stored, it is expired, and a non-empty refresh token is stored. *)
Definition refresh_due (P : Platform) (w : World) : bool :=
  truthy (storage w !! "auth_token") &&
  match jwt_exp P (default "" (storage w !! "auth_token")) with
  | Exp seconds => seconds * 1000 <=? clock w
  | _ => false
  end &&
  truthy (storage w !! "refresh_token").

(** The API root that lines 671-674 resolve in state [w] when the read of
    the instance type succeeds. *)
Definition resolved_apiUrl (w : World) : string :=
  if String.eqb (or_else (storage w !! "instance_type") "") "cloud"
  then "https://api.dify.ai/v1"
  else or_else (Some (publicApiPrefix (auth w))) (or_else (Some (apiPrefix (auth w))) "").

(** The format that [validateApiKey] checks before it asks the server. *)
Definition well_formed_key (apiKey : string) : Prop :=
  startsWith "app-" apiKey = true /\ (20 <= String.length apiKey)%nat.

(** The values that the code leaves under the flag key: [logout] removes
    it and [setIsAuthenticated] writes ['true'] or ['false']. *)
Definition flag_key_written (w : World) : Prop :=
  storage w !! "isAuthenticated" = None \/
  storage w !! "isAuthenticated" = Some "true" \/
  storage w !! "isAuthenticated" = Some "false".

(** A computation that leaves the flag key so written. *)
Definition keeps_flag_key {A} (m : M A) : Prop :=
  forall w, flag_key_written w -> flag_key_written (after m w).

(** * Properties *)

Example or_else_empty : or_else (Some "") "d" = "d".
Proof. reflexivity. Qed.

Example logout_fresh :
  result Auth.logout (start ∅ [] 0) = Ok tt.
Proof. vm_compute. reflexivity. Qed.

Example setCookies_fresh :
  storage (after (Auth.setCookies (Some "sid=1")) (start ∅ [] 0)) !! "auth_cookies" = Some "sid=1".
Proof. vm_compute. reflexivity. Qed.

(** ** What [getItem] resolves to *)

Arguments AsyncStorage.resolved : simpl never.

Lemma resolved_Some_iff (entry : option string) (s : string) :
  AsyncStorage.resolved entry = Some s <-> entry = Some s /\ s <> "".
Proof.
  unfold AsyncStorage.resolved. destruct entry as [t|]; [|by split; [|intros [? _]]].
  destruct (String.eqb t "") eqn:E.
  - apply String.eqb_eq in E. subst t. split; [done|]. by intros [[= <-] ?].
  - apply String.eqb_neq in E. split; [by intros [= <-]|]. by intros [[= <-] _].
Qed.

Lemma resolved_None_iff (entry : option string) :
  AsyncStorage.resolved entry = None <-> entry = None \/ entry = Some "".
Proof.
  unfold AsyncStorage.resolved. destruct entry as [t|]; [|by split; [left|]].
  destruct (String.eqb t "") eqn:E.
  - apply String.eqb_eq in E. subst t. split; [by right|done].
  - apply String.eqb_neq in E. split; [done|]. by intros [|[= ->]].
Qed.

Lemma resolved_nonempty (s : string) :
  s <> "" -> AsyncStorage.resolved (Some s) = Some s.
Proof. intros Hs. by apply resolved_Some_iff. Qed.

(** The code's truthiness tests and [||] defaults do not tell a stored
    empty string from a missing entry, so they see through [resolved]. *)
Lemma truthy_resolved (entry : option string) :
  truthy (AsyncStorage.resolved entry) = truthy entry.
Proof.
  unfold AsyncStorage.resolved. destruct entry as [t|]; [|done].
  simpl. by destruct (String.eqb t "") eqn:E; simpl; rewrite ?E.
Qed.

Lemma or_else_resolved (entry : option string) (d : string) :
  or_else (AsyncStorage.resolved entry) d = or_else entry d.
Proof.
  unfold AsyncStorage.resolved. destruct entry as [t|]; [|done].
  simpl. by destruct (String.eqb t "") eqn:E; simpl; rewrite ?E.
Qed.

Lemma default_resolved (entry : option string) :
  default "" (AsyncStorage.resolved entry) = default "" entry.
Proof.
  unfold AsyncStorage.resolved. destruct entry as [t|]; [|done].
  simpl. destruct (String.eqb t "") eqn:E; [|done].
  apply String.eqb_eq in E. by subst.
Qed.

(** ** AsyncStorage when no call is scripted to reject *)

Lemma getItem_working key w :
  storage_faults w = [] ->
  AsyncStorage.getItem key w = (Ok (AsyncStorage.resolved (storage w !! key)), w).
Proof.
  intros H. unfold AsyncStorage.getItem, AsyncStorage.faulty, bind, gets.
  by rewrite H.
Qed.

Lemma setItem_working key v w :
  storage_faults w = [] ->
  AsyncStorage.setItem key (Some v) w = (Ok tt, with_storage (insert key v) w).
Proof.
  intros H. unfold AsyncStorage.setItem, AsyncStorage.faulty, bind, modify.
  by rewrite H.
Qed.

Lemma multiRemove_working keys w :
  storage_faults w = [] ->
  AsyncStorage.multiRemove keys w
  = (Ok tt, with_storage (fun st => foldr delete st keys) w).
Proof.
  intros H. unfold AsyncStorage.multiRemove, AsyncStorage.faulty, bind, modify.
  by rewrite H.
Qed.

Lemma foldr_delete_twice (keys : list string) (st : gmap string string) :
  foldr delete (foldr delete st keys) keys = foldr delete st keys.
Proof.
  apply foldr_delete_id, Forall_forall.
  intros k Hk. by apply lookup_foldr_delete.
Qed.

(** ** [logout] *)

Lemma logout_working w :
  storage_faults w = [] ->
  Auth.logout w = (Ok tt, logged_out w).
Proof.
  intros H. unfold Auth.logout, try_catch, bind.
  by rewrite multiRemove_working.
Qed.

Lemma logged_out_twice w : logged_out (logged_out w) = logged_out w.
Proof.
  destruct w as [st fs a ck ft lg nv]. unfold logged_out, with_auth, with_storage.
  cbn [storage storage_faults auth clock fetched login nav].
  by rewrite foldr_delete_twice.
Qed.

(** C9. [logout] is idempotent: on a working store, from every state, the
    first call succeeds, the second call succeeds as well, and the state
    (persisted and in memory) after two calls is the state after one. *)
Theorem C9_logout_idempotent (w : World) :
  storage_faults w = [] ->
  result Auth.logout w = Ok tt /\
  result Auth.logout (after Auth.logout w) = Ok tt /\
  after Auth.logout (after Auth.logout w) = after Auth.logout w.
Proof.
  intros H. unfold result, after.
  rewrite (logout_working w H). simpl.
  assert (H1 : storage_faults (logged_out w) = []) by (by destruct w).
  rewrite (logout_working _ H1). simpl.
  by rewrite logged_out_twice.
Qed.

Lemma C9_logout_idempotent_witness :
  storage_faults signed_in = [] /\
  result Auth.logout (after Auth.logout signed_in) = Ok tt /\
  after Auth.logout (after Auth.logout signed_in) = after Auth.logout signed_in.
Proof.
  split; [reflexivity|].
  apply (C9_logout_idempotent signed_in). reflexivity.
Defined.

(** ** API prefixes *)

(** C8. On a working store, [setApiPrefix(p)] with the second argument
    omitted persists [p] under [public_api_prefix], and a following
    [getPublicApiPrefix()] returns [p]. *)
Theorem C8_setApiPrefix_public_fallback (p : string) (w : World) :
  storage_faults w = [] ->
  result (Auth.setApiPrefix p None) w = Ok tt /\
  storage (after (Auth.setApiPrefix p None) w) !! "public_api_prefix" = Some p /\
  result Auth.getPublicApiPrefix (after (Auth.setApiPrefix p None) w) = Ok p.
Proof.
  intros H. destruct w as [st fs a ck ft lg nv]. simpl in H. subst fs.
  unfold result, after, Auth.setApiPrefix, Auth.getPublicApiPrefix.
  simpl. split; [done|]. split.
  - by rewrite lookup_insert_eq.
  - destruct (String.eqb p "") eqn:E; simpl; [|done].
    apply String.eqb_eq in E. by subst.
Qed.

Lemma C8_setApiPrefix_public_fallback_witness :
  storage (after (Auth.setApiPrefix "https://x/api" None) (start ∅ [] 0))
    !! "public_api_prefix" = Some "https://x/api" /\
  result Auth.getPublicApiPrefix
    (after (Auth.setApiPrefix "https://x/api" None) (start ∅ [] 0)) = Ok "https://x/api".
Proof.
  apply (C8_setApiPrefix_public_fallback "https://x/api" (start ∅ [] 0)).
  reflexivity.
Defined.

(** ** The persisted flag read by the navigator *)

Lemma checkAuthState_working w :
  storage_faults w = [] ->
  Auth.checkAuthState w
  = (Ok (auth_flag w),
     match AsyncStorage.resolved (storage w !! "isAuthenticated") with
     | Some s => with_auth (set_isAuthenticated (String.eqb s "true")) w
     | None => w
     end).
Proof.
  intros H. unfold Auth.checkAuthState, bind. rewrite (getItem_working _ _ H).
  unfold auth_flag.
  destruct (AsyncStorage.resolved (storage w !! "isAuthenticated")); [|done].
  by destruct w.
Qed.

(** The flag key as the code writes it: [setIsAuthenticated] stores
    ['true'] or ['false'] and [logout] removes the key. *)
Lemma auth_flag_written (w : World) :
  storage w !! "isAuthenticated" <> Some "" ->
  auth_flag w = match storage w !! "isAuthenticated" with
                | Some s => String.eqb s "true"
                | None => isAuthenticated (auth w)
                end.
Proof.
  intros Hne. unfold auth_flag.
  destruct (storage w !! "isAuthenticated") as [s|] eqn:E; [|done].
  rewrite resolved_nonempty; [done|]. by intros ->.
Qed.

(** *** What is ever stored under the flag key *)

Lemma keeps_ret {A} (a : A) : keeps_flag_key (ret a).
Proof. by intros w. Qed.

Lemma keeps_throw {A} e : keeps_flag_key (@throw A e).
Proof. by intros w. Qed.

Lemma keeps_gets {A} (f : World -> A) : keeps_flag_key (gets f).
Proof. by intros w. Qed.

Lemma keeps_modify (f : World -> World) :
  (forall w, storage (f w) = storage w) -> keeps_flag_key (modify f).
Proof. intros Hf w. unfold flag_key_written, after, modify. simpl. by rewrite Hf. Qed.

Lemma keeps_bind {A B} (m : M A) (k : A -> M B) :
  keeps_flag_key m -> (forall a, keeps_flag_key (k a)) -> keeps_flag_key (bind m k).
Proof.
  intros Hm Hk w Hw. specialize (Hm w Hw). unfold after, bind in *.
  destruct (m w) as [[a|e] w1]; simpl in Hm; [|done]. by apply Hk.
Qed.

Lemma keeps_try_catch {A} (m : M A) (h : JsError -> M A) :
  keeps_flag_key m -> (forall e, keeps_flag_key (h e)) -> keeps_flag_key (try_catch m h).
Proof.
  intros Hm Hh w Hw. specialize (Hm w Hw). unfold after, try_catch in *.
  destruct (m w) as [[a|e] w1]; simpl in Hm; [done|]. by apply Hh.
Qed.

Lemma keeps_all2 {A B} (m1 : M A) (m2 : M B) :
  keeps_flag_key m1 -> keeps_flag_key m2 -> keeps_flag_key (Promise_all2 m1 m2).
Proof.
  intros H1 H2 w Hw. specialize (H1 w Hw). unfold after, Promise_all2 in *.
  destruct (m1 w) as [r1 w1]. simpl in H1. specialize (H2 w1 H1). unfold after in H2.
  destruct (m2 w1) as [r2 w2]. simpl in H2. by destruct r1, r2.
Qed.

Lemma keeps_when b (m : M unit) : keeps_flag_key m -> keeps_flag_key (when b m).
Proof. intros Hm. destruct b; [done|apply keeps_ret]. Qed.

Lemma keeps_getItem key : keeps_flag_key (AsyncStorage.getItem key).
Proof. intros [st fs au ck ft lg nv] Hw. by destruct fs as [|[] fs]. Qed.

Lemma keeps_setItem key value :
  key <> "isAuthenticated" -> keeps_flag_key (AsyncStorage.setItem key value).
Proof.
  intros Hk. destruct value as [v|]; [|apply keeps_throw].
  intros [st fs au ck ft lg nv] Hw. unfold flag_key_written in *.
  destruct fs as [|[] fs]; cbn in *; by rewrite ?lookup_insert_ne.
Qed.

Lemma keeps_setIsAuthenticated value : keeps_flag_key (Auth.setIsAuthenticated value).
Proof.
  intros [st fs au ck ft lg nv] Hw. unfold flag_key_written in *.
  destruct fs as [|[] fs]; cbn in *; rewrite ?lookup_insert_eq; try done.
  all: destruct value; auto.
Qed.

Lemma keeps_multiRemove keys : keeps_flag_key (AsyncStorage.multiRemove keys).
Proof.
  intros [st fs au ck ft lg nv] Hw. unfold flag_key_written in *.
  destruct fs as [|[] fs]; cbn in *; try done.
  all: destruct (decide ("isAuthenticated" ∈ keys)) as [Hin|Hout];
    [left; by apply lookup_foldr_delete|by rewrite lookup_foldr_delete_not_elem_of].
Qed.

Lemma keeps_fetch P req : keeps_flag_key (fetch P req).
Proof.
  intros w Hw. unfold after, fetch. destruct (http P (fetched w) req); by destruct w.
Qed.

(** Breaks a handler down along its structure. *)
Ltac keeps :=
  repeat first
    [ apply keeps_ret | apply keeps_throw | apply keeps_gets
    | apply keeps_getItem | apply keeps_fetch | apply keeps_multiRemove
    | apply keeps_setIsAuthenticated
    | apply keeps_setItem; discriminate
    | apply keeps_modify; by intros []
    | apply keeps_when
    | apply keeps_all2
    | apply keeps_bind; [|intros ?]
    | apply keeps_try_catch; [|intros ?]
    | match goal with
      | x : (_ * _)%type |- _ => destruct x
      | |- keeps_flag_key (if ?b then _ else _) => destruct b
      | |- keeps_flag_key (match ?x with _ => _ end) => destruct x
      | |- keeps_flag_key (?f _ _ _) => progress unfold f
      | |- keeps_flag_key (?f _ _) => progress unfold f
      | |- keeps_flag_key (?f _) => progress unfold f
      | |- keeps_flag_key ?f => progress unfold f
      end ].

Lemma keeps_logout : keeps_flag_key Auth.logout.
Proof. keeps. Qed.

Lemma keeps_refreshAuthToken P r : keeps_flag_key (Auth.refreshAuthToken P r).
Proof. keeps. Qed.

Lemma keeps_initialize P : keeps_flag_key (Auth.initialize P).
Proof. keeps. Qed.

(** Every call on [Auth] leaves the flag key absent, ['true'] or
    ['false'] when it found it so: the empty string is never stored under
    it. *)
Lemma flag_key_preserved (P : Platform) (c : AuthCall) (w : World) :
  flag_key_written w -> flag_key_written (call P c w).
Proof. revert w. destruct c; cbn [call]; keeps. Qed.

(** The same for the navigation handler of the login screen, the other
    caller of [setIsAuthenticated]. *)
Lemma flag_key_preserved_navigation (P : Platform) (e : jsstring) :
  keeps_flag_key (LoginScreen.handleWebViewNavigation P e).
Proof. keeps. Qed.

(** On a store whose flag key is so written, the answer of
    [checkAuthState] is the key when it is present and the flag in memory
    when it is absent. *)
Lemma auth_flag_of_written (w : World) :
  flag_key_written w ->
  auth_flag w = match storage w !! "isAuthenticated" with
                | Some s => String.eqb s "true"
                | None => isAuthenticated (auth w)
                end.
Proof.
  intros [H|[H|H]]; apply auth_flag_written; rewrite H; discriminate.
Qed.

(** C10. On a working store [checkAuthState()] returns true iff the
    persisted ['isAuthenticated'] key equals ['true'] or, the store
    reporting no value for the key, the in-memory flag is true.  The store
    reports no value when the key is absent, and also when it holds the
    empty string, which [getItem] resolves to null; the code itself writes
    only ['true'] and ['false'] under this key, and on a store so written
    the answer is true iff the key equals ['true'] or, the key being
    absent, the in-memory flag is true.  The poller shows the surface
    chosen by the answer; and the answer is the same in every state that
    agrees on that key and that flag, whatever tokens or cookies are
    stored. *)
Theorem C10_checkAuthState_reads_flag_key (w : World) :
  storage_faults w = [] ->
  result Auth.checkAuthState w = Ok (auth_flag w) /\
  (auth_flag w = true <->
     storage w !! "isAuthenticated" = Some "true" \/
     ((storage w !! "isAuthenticated" = None \/ storage w !! "isAuthenticated" = Some "") /\
      isAuthenticated (auth w) = true)) /\
  (flag_key_written w ->
     (auth_flag w = true <->
        storage w !! "isAuthenticated" = Some "true" \/
        (storage w !! "isAuthenticated" = None /\ isAuthenticated (auth w) = true))) /\
  nav_isAuthenticated (nav (after AppNavigator.poll w)) = auth_flag w /\
  (forall w' : World,
     storage_faults w' = [] ->
     storage w' !! "isAuthenticated" = storage w !! "isAuthenticated" ->
     isAuthenticated (auth w') = isAuthenticated (auth w) ->
     result Auth.checkAuthState w' = result Auth.checkAuthState w).
Proof.
  intros H. split; [|split; [|split; [|split]]].
  - unfold result. by rewrite checkAuthState_working.
  - unfold auth_flag.
    destruct (AsyncStorage.resolved (storage w !! "isAuthenticated")) as [s|] eqn:E.
    + apply resolved_Some_iff in E as [E Hs]. rewrite E. split.
      * intros Et. apply String.eqb_eq in Et. subst. by left.
      * intros [[= ->]|[[Hk|[= ->]] _]]; done.
    + apply resolved_None_iff in E. split.
      * intros Ef. by right.
      * intros [Et|[_ Ef]]; [|done]. destruct E as [E|E]; rewrite E in Et; discriminate Et.
  - intros Hw. rewrite (auth_flag_of_written w Hw).
    destruct (storage w !! "isAuthenticated") as [s|].
    + split.
      * intros Et. apply String.eqb_eq in Et. subst. by left.
      * intros [[= ->]|[[=] _]]. done.
    + split; [by right|]. by intros [[=]|[_ Ef]].
  - unfold after, AppNavigator.poll, bind. rewrite (checkAuthState_working _ H).
    by destruct (AsyncStorage.resolved (storage w !! "isAuthenticated")).
  - intros w' H' Hk Hf. unfold result.
    rewrite (checkAuthState_working _ H), (checkAuthState_working _ H').
    unfold auth_flag. simpl. by rewrite Hk, Hf.
Qed.

Lemma C10_checkAuthState_reads_flag_key_witness :
  storage flag_only !! "auth_token" = None /\
  result Auth.checkAuthState flag_only = Ok true.
Proof.
  split; [reflexivity|].
  destruct (C10_checkAuthState_reads_flag_key flag_only eq_refl) as [H _].
  exact H.
Defined.

(** ** The sign-in URL *)

(** [getSignInUrl()] reads no field of the class: in every state it
    returns the sign-in URL of the cloud instance. *)
Lemma getSignInUrl_constant (w1 w2 : World) :
  Auth.getSignInUrl w1 = "https://cloud.dify.ai/signin" /\
  Auth.getSignInUrl w1 = Auth.getSignInUrl w2.
Proof. split; reflexivity. Qed.

(** C5 fails on the code.  In a freshly started app, the custom login
    with the domain [dify.example.com] entered configures a session of
    instance type [custom], and the cloud login one of type [cloud].
    [getSignInUrl()] gives both sessions the same URL, the sign-in page of
    the cloud instance and not the one of the entered domain, and that is
    the page the custom login opens. *)
Theorem C5_custom_session_gets_cloud_signin :
  instanceType (auth custom_session) = "custom" /\
  storage custom_session !! "instance_type" = Some "custom" /\
  instanceType (auth cloud_session) = "cloud" /\
  storage cloud_session !! "instance_type" = Some "cloud" /\
  Auth.getSignInUrl custom_session = Auth.getSignInUrl cloud_session /\
  Auth.getSignInUrl custom_session = "https://cloud.dify.ai/signin" /\
  Auth.getSignInUrl custom_session
  <> LoginScreen.custom_domain_url "dify.example.com" +:+ "/signin" /\
  webViewUrl (login custom_session) = Auth.getSignInUrl custom_session.
Proof. vm_compute. repeat split; discriminate. Qed.

(** ** In-page messages *)

(** An [API_PREFIX] message changes nothing, in any state.  The handler
    calls a method that [Auth] does not have; the TypeError is caught and
    logged, and the state is the one before the message. *)
Lemma handleWebViewMessage_API_PREFIX
    (P : Platform) (apiPrefix publicApiPrefix : jsstring) (w : World) :
  LoginScreen.handleWebViewMessage (API_PREFIX apiPrefix publicApiPrefix) w = (Ok tt, w).
Proof. reflexivity. Qed.

(** What the sibling setter that exists would have done with the same
    arguments. *)
Example setApiPrefix_applies :
  let w := after (Auth.setApiPrefix "https://x/console/api" (Some "https://x/api"))
                 (start ∅ [] 0) in
  apiPrefix (auth w) = "https://x/console/api" /\ publicApiPrefix (auth w) = "https://x/api".
Proof. vm_compute. done. Qed.

(** C6 fails on the code.  After the message
    [{type: 'API_PREFIX', apiPrefix: 'https://x/console/api',
      publicApiPrefix: 'https://x/api'}] is handled in a freshly started
    app, the handler has returned normally, the prefixes of the session
    manager are still empty and nothing is persisted. *)
Theorem C6_api_prefix_message_ignored :
  let msg := API_PREFIX (Some "https://x/console/api") (Some "https://x/api") in
  let w := after (LoginScreen.handleWebViewMessage msg) (start ∅ [] 0) in
  result (LoginScreen.handleWebViewMessage msg) (start ∅ [] 0) = Ok tt /\
  apiPrefix (auth w) = "" /\ publicApiPrefix (auth w) = "" /\
  storage w !! "api_prefix" = None /\ storage w !! "public_api_prefix" = None.
Proof. vm_compute. done. Qed.

(** ** The custom-domain login *)

Example custom_domain_url_bare :
  LoginScreen.custom_domain_url "dify.example.com" = "https://dify.example.com".
Proof. reflexivity. Qed.

Example custom_domain_url_scheme :
  LoginScreen.custom_domain_url "http://10.0.0.2:8080" = "http://10.0.0.2:8080".
Proof. reflexivity. Qed.

(** [handleCustomLogin] computes the normalized domain and then loses it:
    in every state, the persisted [instance_url] and [base_url] and the
    fields [instanceUrl] and [baseUrl] are after the call what they were
    before it. *)
Lemma handleCustomLogin_keeps_instance (w : World) :
  let w' := after LoginScreen.handleCustomLogin w in
  storage w' !! "instance_url" = storage w !! "instance_url" /\
  storage w' !! "base_url" = storage w !! "base_url" /\
  instanceUrl (auth w') = instanceUrl (auth w) /\
  baseUrl (auth w') = baseUrl (auth w).
Proof.
  destruct w as [st fs a ck ft lg nv].
  unfold after, LoginScreen.handleCustomLogin, bind, gets. simpl.
  destruct (String.eqb (customDomain lg) ""); [done|].
  destruct fs as [|[] fs]; simpl; try done.
  all: by rewrite !lookup_insert_ne.
Qed.

(** C4 fails on the code.  With the domain [dify.example.com] entered in a
    freshly started app, the custom login normalizes it to
    [https://dify.example.com], stores the instance type [custom], and
    persists the domain nowhere: [instance_url] and [base_url] are absent,
    [instanceUrl] is still the cloud URL, [baseUrl] is empty, and the
    browser is sent to the cloud sign-in page. *)
Theorem C4_custom_login_loses_domain :
  let w := after LoginScreen.handleCustomLogin
             (with_login (set_customDomain "dify.example.com") (start ∅ [] 0)) in
  LoginScreen.custom_domain_url "dify.example.com" = "https://dify.example.com" /\
  storage w !! "instance_type" = Some "custom" /\
  storage w !! "instance_url" = None /\ storage w !! "base_url" = None /\
  instanceUrl (auth w) = "https://cloud.dify.ai" /\ baseUrl (auth w) = "" /\
  webViewUrl (login w) = "https://cloud.dify.ai/signin".
Proof. vm_compute. done. Qed.

(** A domain that begins with the letters http gets no scheme. *)
Example custom_domain_url_http_host :
  LoginScreen.custom_domain_url "httpbin.org" = "httpbin.org".
Proof. reflexivity. Qed.

(** The cloud branch of the API root: whatever prefixes are stored, a
    stored instance type [cloud] gives the public endpoint. *)
Lemma apiUrl_cloud (w : World) :
  storage_faults w = [] ->
  storage w !! "instance_type" = Some "cloud" ->
  result AppSetupScreen.apiUrl w = Ok "https://api.dify.ai/v1".
Proof.
  intros H E. unfold result, AppSetupScreen.apiUrl, Auth.getInstanceType, bind, try_catch.
  rewrite (getItem_working _ _ H). unfold STORAGE_KEYS.INSTANCE_TYPE. by rewrite E.
Qed.

(** ** Token refresh *)

Arguments Auth.logout_keys : simpl never.

Lemma setAuthTokens_working a r w :
  storage_faults w = [] ->
  Auth.setAuthTokens (Some a) (Some r) w
  = (Ok tt, with_auth (set_isAuthenticated true)
              (with_storage (insert "refresh_token" r)
                 (with_storage (insert "auth_token" a) w))).
Proof.
  intros H. destruct w as [st fs au ck ft lg nv]. simpl in H. subst fs. reflexivity.
Qed.

Lemma refreshAuthToken_accepted P w refreshToken resp d a r :
  storage_faults w = [] ->
  refresh_response P w refreshToken = Resolved resp ->
  ok resp = true ->
  json resp = Some d -> access_token d = Some a -> refresh_token d = Some r ->
  Auth.refreshAuthToken P refreshToken w
  = (Ok true,
     with_auth (set_isAuthenticated true)
       (with_storage (insert "refresh_token" r)
          (with_storage (insert "auth_token" a)
             (requested (Auth.refresh_request (apiPrefix (auth w)) refreshToken) w)))).
Proof.
  intros H Hr Hok Hj Ha Ht. unfold refresh_response in Hr.
  unfold Auth.refreshAuthToken, try_catch, bind, gets, fetch, response_json.
  rewrite Hr. cbn iota. rewrite Hok. cbn. rewrite Hj. cbn. rewrite Ha, Ht.
  rewrite setAuthTokens_working by done. reflexivity.
Qed.

Lemma refreshAuthToken_refused P w refreshToken :
  storage_faults w = [] ->
  (refresh_response P w refreshToken = Rejected \/
   exists resp, refresh_response P w refreshToken = Resolved resp /\ ok resp = false) ->
  Auth.refreshAuthToken P refreshToken w
  = (Ok false,
     logged_out (requested (Auth.refresh_request (apiPrefix (auth w)) refreshToken) w)).
Proof.
  intros H Hr. unfold refresh_response in Hr.
  unfold Auth.refreshAuthToken, try_catch, bind, gets, fetch.
  destruct Hr as [Hr | (resp & Hr & Hok)]; rewrite Hr; [|rewrite Hok; simpl].
  all: by rewrite logout_working.
Qed.

(** C3. On a working store: when the POST to [{apiPrefix}/oauth/token/refresh]
    is answered with a 2xx status and the new pair, [refreshAuthToken]
    returns true and the pair is stored; when the request fails or is
    answered with any other status, it returns false, the state is the one
    [logout()] leaves, and [isAuthenticated] is false. *)
Theorem C3_refreshAuthToken (P : Platform) (w : World) (refreshToken : string) :
  storage_faults w = [] ->
  let req := Auth.refresh_request (apiPrefix (auth w)) refreshToken in
  let w' := after (Auth.refreshAuthToken P refreshToken) w in
  url req = apiPrefix (auth w) +:+ "/oauth/token/refresh" /\
  method req = "POST" /\
  fetched w' = fetched w ++ [req] /\
  (forall resp d a r,
     refresh_response P w refreshToken = Resolved resp ->
     ok resp = true ->
     json resp = Some d -> access_token d = Some a -> refresh_token d = Some r ->
     result (Auth.refreshAuthToken P refreshToken) w = Ok true /\
     storage w' !! "auth_token" = Some a /\
     storage w' !! "refresh_token" = Some r) /\
  (refresh_response P w refreshToken = Rejected \/
   (exists resp, refresh_response P w refreshToken = Resolved resp /\ ok resp = false) ->
     result (Auth.refreshAuthToken P refreshToken) w = Ok false /\
     w' = after Auth.logout (requested req w) /\
     isAuthenticated (auth w') = false).
Proof.
  intros H req w'. split; [done|]. split; [done|]. split; [|split].
  - subst w'. unfold after, Auth.refreshAuthToken, try_catch, bind, gets, fetch.
    fold req. destruct (http P (fetched w) req) as [|resp]; simpl.
    { rewrite logout_working by done. by destruct w. }
    destruct (ok resp); simpl.
    2: { rewrite logout_working by done. by destruct w. }
    unfold response_json. destruct (json resp) as [d|]; simpl.
    2: { rewrite logout_working by done. by destruct w. }
    destruct w as [st fs au ck ft lg nv]. simpl in H. subst fs.
    unfold Auth.setAuthTokens, try_catch, bind, Promise_all2.
    destruct (access_token d), (refresh_token d); reflexivity.
  - intros resp d a r Hr Hok Hj Ha Ht. subst w'. unfold result, after.
    rewrite (refreshAuthToken_accepted P w refreshToken resp d a r) by done.
    simpl. split; [done|]. split.
    + rewrite lookup_insert_ne by done. by rewrite lookup_insert_eq.
    + by rewrite lookup_insert_eq.
  - intros Hr. subst w'. unfold result, after.
    rewrite refreshAuthToken_refused by done. simpl.
    rewrite logout_working by (by destruct w). done.
Qed.

Lemma C3_refreshAuthToken_witness :
  (result (Auth.refreshAuthToken accepting "r") signed_in = Ok true /\
   storage (after (Auth.refreshAuthToken accepting "r") signed_in) !! "auth_token" = Some "abc" /\
   storage (after (Auth.refreshAuthToken accepting "r") signed_in) !! "refresh_token" = Some "def") /\
  (result (Auth.refreshAuthToken refusing "r") signed_in = Ok false /\
   isAuthenticated (auth (after (Auth.refreshAuthToken refusing "r") signed_in)) = false).
Proof.
  split.
  - destruct (C3_refreshAuthToken accepting signed_in "r" eq_refl) as (_ & _ & _ & Hyes & _).
    exact (Hyes _ _ "abc" "def" eq_refl eq_refl eq_refl eq_refl eq_refl).
  - destruct (C3_refreshAuthToken refusing signed_in "r" eq_refl) as (_ & _ & _ & _ & Hno).
    destruct Hno as (Hres & _ & Hauth).
    + right. eexists. split; reflexivity.
    + split; assumption.
Defined.

(** ** The authenticated flag and the stored token *)

(** C1, as stated, fails: after [setCookies] on a first run the session is
    authenticated and no access token is stored. *)
Lemma C1_setCookies_without_token :
  ~ (forall w, reachable offline w -> authenticated_has_token w).
Proof.
  intros Hinv.
  assert (Hr : reachable offline (call offline (CallSetCookies (Some "sid=1")) (start ∅ [] 0)))
    by (apply reachable_call, reachable_start).
  destruct (Hinv _ Hr eq_refl) as [t Ht].
  vm_compute in Ht. discriminate.
Qed.

(** C1, amended.  On a working store [setCookies] and [setAuthTokens] each
    succeed and set [isAuthenticated] to true without looking at the other
    artifact, which they leave as stored.  After [setAuthTokens] an access
    token is stored; after [setCookies] one is stored exactly when one was
    stored before. *)
Theorem C1_setters_assign_true (w : World) (c a r : string) :
  storage_faults w = [] ->
  let wc := after (Auth.setCookies (Some c)) w in
  let wt := after (Auth.setAuthTokens (Some a) (Some r)) w in
  (result (Auth.setCookies (Some c)) w = Ok tt /\
   isAuthenticated (auth wc) = true /\
   storage wc !! "auth_cookies" = Some c /\
   storage wc !! "auth_token" = storage w !! "auth_token" /\
   (authenticated_has_token wc <-> is_Some (storage w !! "auth_token"))) /\
  (result (Auth.setAuthTokens (Some a) (Some r)) w = Ok tt /\
   isAuthenticated (auth wt) = true /\
   storage wt !! "auth_token" = Some a /\
   storage wt !! "auth_cookies" = storage w !! "auth_cookies" /\
   authenticated_has_token wt).
Proof.
  intros H. destruct w as [st fs au ck ft lg nv]. simpl in H. subst fs.
  unfold authenticated_has_token. cbn.
  repeat split; simplify_map_eq; try done; eauto.
Qed.

Lemma C1_setters_assign_true_witness :
  isAuthenticated (auth (after (Auth.setCookies (Some "sid=1")) (start ∅ [] 0))) = true /\
  storage (after (Auth.setCookies (Some "sid=1")) (start ∅ [] 0)) !! "auth_token" = None.
Proof.
  destruct (C1_setters_assign_true (start ∅ [] 0) "sid=1" "a" "r" eq_refl)
    as ((_ & Hauth & _ & Htok & _) & _).
  split; [exact Hauth | exact Htok].
Defined.

(** ** [initialize] *)

Lemma reads_getItem key :
  reads (AsyncStorage.getItem key) (fun st => AsyncStorage.resolved (st !! key)).
Proof.
  intros [st fs au ck ft lg nv].
  unfold after, result, AsyncStorage.getItem, AsyncStorage.faulty, bind, gets, throw.
  destruct fs as [|[] fs]; simpl.
  - exists []. eauto.
  - exists fs. eauto.
  - exists fs. eauto.
Qed.

Lemma reads_all2 {A B} (m1 : M A) (m2 : M B) f1 f2 :
  reads m1 f1 -> reads m2 f2 ->
  reads (Promise_all2 m1 m2) (fun st => (f1 st, f2 st)).
Proof.
  unfold reads, after, result, Promise_all2. intros H1 H2 w.
  destruct (H1 w) as (fs1 & E1 & R1).
  destruct (m1 w) as [r1 w1] eqn:Em1. simpl in E1, R1. subst w1.
  destruct (H2 (with_faults fs1 w)) as (fs2 & E2 & R2).
  destruct (m2 (with_faults fs1 w)) as [r2 w2] eqn:Em2. simpl in E2, R2. subst w2.
  exists fs2. split.
  - by destruct r1, r2.
  - destruct R1 as [-> | [e ->]]; [|eauto].
    destruct R2 as [-> | [e ->]]; eauto.
Qed.

Lemma truthy_Some (v : jsstring) :
  truthy v = true <-> exists s, v = Some s /\ s <> "".
Proof.
  destruct v as [s|]; simpl.
  - rewrite negb_true_iff, String.eqb_neq. split.
    + intros Hs. by exists s.
    + intros (s' & [= <-] & Hs). exact Hs.
  - split; [done|]. by intros (s & [=] & _).
Qed.

Lemma initialize_never_throws P w : exists b, result (Auth.initialize P) w = Ok b.
Proof.
  unfold result, Auth.initialize, try_catch.
  match goal with |- context [bind ?m ?k w] => destruct (bind m k w) as [[b|e] w'] end.
  - by exists b.
  - by exists false.
Qed.

Lemma initialize_empty P w :
  storage w = ∅ -> result (Auth.initialize P) w = Ok false.
Proof.
  intros Hst. unfold result, Auth.initialize, try_catch, bind at 1.
  match goal with |- context [Promise_all2 ?a ?b w] =>
    pose proof (reads_all2 _ _ _ _ (reads_getItem STORAGE_KEYS.AUTH_TOKEN)
      (reads_all2 _ _ _ _ (reads_getItem STORAGE_KEYS.REFRESH_TOKEN)
      (reads_all2 _ _ _ _ (reads_getItem STORAGE_KEYS.INSTANCE_URL)
      (reads_all2 _ _ _ _ (reads_getItem STORAGE_KEYS.INSTANCE_TYPE)
      (reads_all2 _ _ _ _ (reads_getItem STORAGE_KEYS.API_PREFIX)
      (reads_all2 _ _ _ _ (reads_getItem STORAGE_KEYS.PUBLIC_API_PREFIX)
      (reads_all2 _ _ _ _ (reads_getItem STORAGE_KEYS.COOKIES)
                          (reads_getItem STORAGE_KEYS.BASE_URL))))))) w) as (fs & Ew & R);
    unfold after, result in Ew, R;
    destruct (Promise_all2 a b w) as [r w0] eqn:Eload
  end.
  simpl in Ew, R. subst w0.
  destruct R as [-> | [e ->]]; [|done].
  rewrite Hst, !lookup_empty. reflexivity.
Qed.

Lemma refreshAuthToken_working P w refreshToken :
  storage_faults w = [] ->
  (accepted (refresh_response P w refreshToken) /\
   result (Auth.refreshAuthToken P refreshToken) w = Ok true /\
   isAuthenticated (auth (after (Auth.refreshAuthToken P refreshToken) w)) = true) \/
  (~ accepted (refresh_response P w refreshToken) /\
   result (Auth.refreshAuthToken P refreshToken) w = Ok false /\
   isAuthenticated (auth (after (Auth.refreshAuthToken P refreshToken) w)) = false).
Proof.
  intros H. unfold accepted.
  destruct (refresh_response P w refreshToken) as [|resp] eqn:Hr.
  { right. split; [intros (? & ? & ? & ? & ? & ? & ? & ? & ?); congruence|].
    unfold result, after. rewrite refreshAuthToken_refused by auto. done. }
  destruct (ok resp) eqn:Hok.
  2: { right. split; [intros (? & ? & ? & ? & ? & ? & ? & ? & ?); congruence|].
       unfold result, after. rewrite refreshAuthToken_refused by eauto. done. }
  destruct (json resp) as [d|] eqn:Hj.
  2: { right. split; [intros (? & ? & ? & ? & ? & ? & ? & ? & ?); congruence|].
       unfold refresh_response in Hr.
       unfold result, after, Auth.refreshAuthToken, try_catch, bind, gets, fetch, response_json.
       rewrite Hr. cbn iota. rewrite Hok. cbn. rewrite Hj. cbn.
       rewrite logout_working by (by destruct w). done. }
  destruct (access_token d) as [a|] eqn:Ha, (refresh_token d) as [r|] eqn:Ht.
  { left. split; [by exists resp, d, a, r|].
    unfold result, after. by rewrite (refreshAuthToken_accepted P w _ resp d a r). }
  all: right; split;
    [intros (? & ? & ? & ? & ? & ? & ? & ? & ?); congruence|];
    unfold refresh_response in Hr;
    unfold result, after, Auth.refreshAuthToken, try_catch, bind, gets, fetch, response_json;
    rewrite Hr; cbn iota; rewrite Hok; cbn; rewrite Hj; cbn; rewrite Ha, Ht;
    destruct w as [st fs au ck ft lg nv]; simpl in H; subst fs; split; reflexivity.
Qed.

Lemma initialize_working P w :
  storage_faults w = [] ->
  (result (Auth.initialize P) w = Ok true <->
   exists token, storage w !! "auth_token" = Some token /\ token <> "" /\
     ((unexpired P w token /\ truthy (storage w !! "auth_cookies") = true) \/
      (expired P w token /\
       exists rt, storage w !! "refresh_token" = Some rt /\ rt <> "" /\
                  accepted (initialize_refresh P w rt)))).
Proof.
  intros H. destruct w as [st fs au ck ft lg nv]. simpl in H. subst fs.
  unfold result, Auth.initialize, initialize_refresh, unexpired, expired.
  unfold try_catch at 1. unfold bind at 1.
  cbn -[Auth.refreshAuthToken Auth.logout truthy or_else from_option].
  unfold STORAGE_KEYS.AUTH_TOKEN, STORAGE_KEYS.REFRESH_TOKEN, STORAGE_KEYS.COOKIES,
    STORAGE_KEYS.API_PREFIX.
  rewrite ?truthy_resolved, ?or_else_resolved, ?default_resolved.
  destruct (st !! "auth_token") as [tok|] eqn:Etok.
  2: { cbn. split; [discriminate|]. by intros (t & [=] & _). }
  destruct (String.eqb tok "") eqn:Eempty.
  { apply String.eqb_eq in Eempty. subst tok. cbn.
    split; [discriminate|]. by intros (t & [= <-] & Hne & _). }
  assert (Hne : tok <> "") by (by apply String.eqb_neq).
  unfold truthy at 1. rewrite Eempty. cbn [negb when default from_option id].
  unfold Auth.token_expired, bind at 1, try_catch at 1, bind at 1.
  destruct (jwt_exp P tok) as [| |s] eqn:Ej.
  - (* the token does not decode *)
    cbn -[Auth.logout truthy or_else]. rewrite logout_working by done. cbn.
    split; [discriminate|].
    intros (t & [= <-] & _ & [[[? | (? & ? & _)] _] | [(? & ? & _) _]]); congruence.
  - (* no numeric expiry *)
    cbn -[truthy or_else]. unfold truthy at 1. rewrite Eempty. cbn [negb andb].
    split.
    + intros [= Hc]. exists tok. split; [done|]. split; [done|]. left.
      split; [by left|done].
    + intros (t & [= <-] & _ & [[_ Hc] | [(? & ? & _) _]]); [|congruence].
      by rewrite Hc.
  - unfold bind at 1, gets at 1. unfold with_auth at 1. cbn [clock]. unfold ret at 1.
    destruct (Z.leb_spec (s * 1000) ck) as [Hle|Hgt].
    + (* expired *)
      cbn [when].
      destruct (st !! "refresh_token") as [rt|] eqn:Ert.
      2: { cbn -[Auth.logout or_else]. rewrite logout_working by done. cbn.
           split; [discriminate|].
           intros (t & [= <-] & _ & [[[? | (s' & ? & ?)] _] | [_ (? & [=] & _)]]).
           - congruence.
           - assert (s' = s) by congruence. subst. lia. }
      destruct (String.eqb rt "") eqn:Ert0.
      { apply String.eqb_eq in Ert0. subst rt.
        cbn -[Auth.logout or_else]. rewrite logout_working by done. cbn.
        split; [discriminate|].
        intros (t & [= <-] & _ & [[[? | (s' & ? & ?)] _] | [_ (? & [= <-] & ? & _)]]).
        - congruence.
        - assert (s' = s) by congruence. subst. lia.
        - done. }
      unfold truthy at 1. rewrite Ert0. cbn [negb default from_option id].
      unfold bind at 1.
      match goal with |- context [Auth.refreshAuthToken P rt ?w1] =>
        pose proof (refreshAuthToken_working P w1 rt eq_refl) as Hrw;
        unfold result, after, refresh_response in Hrw;
        destruct (Auth.refreshAuthToken P rt w1) as [o w2] eqn:Eref
      end.
      destruct Hrw as [(Hacc & Hres & Hauth) | (Hnacc & Hres & Hauth)].
      * simpl in Hres, Hauth, Hacc. subst o. cbn. rewrite Hauth.
        split; [intros _|done].
        exists tok. split; [done|]. split; [done|]. right.
        split; [by exists s|]. exists rt. split; [done|]. split; [by apply String.eqb_neq|].
        exact Hacc.
      * simpl in Hres, Hauth, Hnacc. subst o. cbn. rewrite Hauth.
        split; [discriminate|].
        intros (t & [= <-] & _ & [[[? | (s' & ? & ?)] _] | [_ (rt' & [= <-] & _ & Hacc)]]).
        -- congruence.
        -- assert (s' = s) by congruence. subst. lia.
        -- by destruct (Hnacc Hacc).
    + (* not expired *)
      cbn -[truthy or_else]. unfold truthy at 1. rewrite Eempty. cbn [negb andb].
      split.
      * intros [= Hc]. exists tok. split; [done|]. split; [done|]. left.
        split; [right; exists s; split; [done|lia]|done].
      * intros (t & [= <-] & _ & [[_ Hc] | [(s' & ? & ?) _]]).
        -- by rewrite Hc.
        -- assert (s' = s) by congruence. subst. lia.
Qed.

(** C2, as stated, fails: with no cookies in the store, an expired token
    and a refresh that the server accepts, [initialize()] returns true. *)
Lemma C2_initialize_true_without_cookies :
  storage no_cookies !! "auth_cookies" = None /\
  jwt_exp accepting "t.t.t" = Exp 0 /\
  result (Auth.initialize accepting) no_cookies = Ok true.
Proof. vm_compute. done. Qed.

Example initialize_undecodable_token :
  storage signed_in !! "auth_cookies" = Some "sid=1" /\
  jwt_exp offline "t.t.t" = DecodeThrows /\
  result (Auth.initialize offline) signed_in = Ok false.
Proof. vm_compute. done. Qed.

(** C2, amended.  [initialize()] returns a boolean and never throws,
    whatever the store holds and whichever storage calls reject; over an
    empty store it returns false; and on a working store it returns true
    exactly when a non-empty access token is stored and either the token is
    unexpired and non-empty cookies are stored, or the token is expired, a
    non-empty refresh token is stored and the refresh is accepted (cookies
    are then not looked at).  A token that does not decode gives false. *)
Theorem C2_initialize (P : Platform) (w : World) :
  (exists b, result (Auth.initialize P) w = Ok b) /\
  (storage w = ∅ -> result (Auth.initialize P) w = Ok false) /\
  (storage_faults w = [] ->
   (result (Auth.initialize P) w = Ok true <->
    exists token, storage w !! "auth_token" = Some token /\ token <> "" /\
      ((unexpired P w token /\ truthy (storage w !! "auth_cookies") = true) \/
       (expired P w token /\
        exists rt, storage w !! "refresh_token" = Some rt /\ rt <> "" /\
                   accepted (initialize_refresh P w rt))))).
Proof.
  split; [apply initialize_never_throws|].
  split; [apply initialize_empty|apply initialize_working].
Qed.

Lemma C2_initialize_witness :
  result (Auth.initialize live) (start ∅ [] 0) = Ok false /\
  result (Auth.initialize live) signed_in = Ok true.
Proof.
  split.
  - destruct (C2_initialize live (start ∅ [] 0)) as (_ & Hempty & _).
    apply Hempty. reflexivity.
  - destruct (C2_initialize live signed_in) as (_ & _ & Hiff).
    apply (Hiff eq_refl). exists "t.t.t".
    split; [reflexivity|]. split; [discriminate|]. left. split; [|reflexivity].
    right. exists 4102444800. split; [reflexivity|]. reflexivity.
Defined.

(** ** The one-shot guard of the login screen *)

Lemma navigation_when_processed P e w :
  loginProcessed (login w) = true ->
  LoginScreen.handleWebViewNavigation P e w = (Ok tt, w).
Proof.
  intros Hp. unfold LoginScreen.handleWebViewNavigation, try_catch, when, bind, gets.
  destruct (truthy e); [|done].
  unfold LoginScreen.new_URL.
  destruct (url_parse P (default "" e)) as [u|]; cbn.
  - destruct (String.eqb (pathname u) "/apps"); [|done]. by rewrite Hp.
  - rewrite Hp. by rewrite andb_false_r.
Qed.

Lemma navigation_elsewhere P e w :
  reported_whole P e -> landing P e = false ->
  LoginScreen.handleWebViewNavigation P e w = (Ok tt, w).
Proof.
  unfold reported_whole, landing. intros Hwhole Hl.
  unfold LoginScreen.handleWebViewNavigation, try_catch, when, bind, gets.
  destruct (truthy e); [|done].
  unfold LoginScreen.new_URL.
  destruct (url_parse P (default "" e)) as [u|]; cbn in Hl |- *.
  - by rewrite Hl.
  - by rewrite (Hwhole eq_refl eq_refl).
Qed.

(** Symbolic execution of a handler: the monad, the storage calls and the
    record updates are unfolded; maps, strings and the platform stay. *)
Ltac run :=
  cbv beta iota zeta delta
    [after result bind ret throw try_catch modify gets when fetch response_json
     fst snd negb andb
     LoginScreen.alert LoginScreen.new_URL LoginScreen.complete_login
     AsyncStorage.setItem AsyncStorage.faulty
     Auth.setInstanceType Auth.setBaseUrl Auth.getApiPrefix Auth.setIsAuthenticated
     with_storage with_faults with_auth with_login with_fetched
     storage storage_faults auth clock fetched login nav
     set_isAuthenticated set_instanceType set_apiPrefix set_baseUrl
     set_showWebView set_loginProcessed add_alert add_replaced
     isAuthenticated instanceUrl instanceType apiPrefix publicApiPrefix cookies baseUrl
     showWebView showCustomDomain customDomain webViewUrl loginProcessed alerts replaced].

Lemma navigation_landing P e w :
  storage_faults w = [] ->
  loginProcessed (login w) = false ->
  landing P e = true ->
  let w' := after (LoginScreen.handleWebViewNavigation P e) w in
  storage_faults w' = [] /\
  loginProcessed (login w') = true /\
  exists token,
    fetched w' = fetched w ++ [LoginScreen.apps_request (current_apiPrefix w) token].
Proof.
  intros Hf Hp Hl. unfold landing in Hl. apply andb_true_iff in Hl as [Ht Hl].
  destruct (url_parse P (default "" e)) as [u|] eqn:Hu; [|done].
  destruct w as [st fs au ck ft lg nv]. simpl in Hf, Hp. subst fs.
  destruct lg as [sw sc cd wu lp al rp]. simpl in Hp. subst lp.
  destruct au as [ia iu it ap pp co bu].
  intros w'. subst w'. unfold current_apiPrefix.
  match goal with |- context G [after ?m ?w] =>
    pattern (after m w);
    match goal with |- ?Q _ => set (post := Q) end
  end.
  unfold LoginScreen.handleWebViewNavigation.
  rewrite Ht. run. rewrite Hu. run. rewrite Hl. run.
  destruct (truthy (searchParams_access_token u)) eqn:Htok;
    [ apply truthy_Some in Htok as (a & Ha & _); rewrite Ha;
      destruct (truthy (searchParams_refresh_token u)) eqn:Href;
      [ apply truthy_Some in Href as (r & Hr & _); rewrite Hr | ] | ].
  all: run.
  all: destruct (String.eqb ap "") eqn:Eap; run.
  all: match goal with |- context [http ?p ?l ?req] => destruct (http p l req) as [|resp] end;
    run.
  all: try (destruct (ok resp); run).
  all: try (destruct (json resp); run).
  all: subst post;
    cbv beta iota delta [storage_faults login loginProcessed fetched auth apiPrefix];
    rewrite Eap; split; [reflexivity|split; [reflexivity|eexists; reflexivity]].
Qed.

Lemma navigate_cons P e events w :
  navigate P (e :: events) w
  = navigate P events (after (LoginScreen.handleWebViewNavigation P e) w).
Proof. reflexivity. Qed.

Lemma navigate_when_processed P events w :
  loginProcessed (login w) = true -> navigate P events w = w.
Proof.
  revert w. induction events as [|e events IH]; intros w Hp; [done|].
  rewrite navigate_cons. unfold after.
  rewrite navigation_when_processed by done. simpl. by apply IH.
Qed.

Lemma navigate_first_landing P events w :
  storage_faults w = [] ->
  loginProcessed (login w) = false ->
  Forall (reported_whole P) events ->
  (1 <= landings P events)%nat ->
  loginProcessed (login (navigate P events w)) = true /\
  exists token,
    fetched (navigate P events w)
    = fetched w ++ [LoginScreen.apps_request (current_apiPrefix w) token].
Proof.
  revert w. induction events as [|e events IH]; intros w Hf Hp Hparse Hn.
  { unfold landings in Hn. simpl in Hn. lia. }
  apply Forall_cons in Hparse as [He Hparse].
  rewrite navigate_cons.
  destruct (landing P e) eqn:Hl.
  - destruct (navigation_landing P e w Hf Hp Hl) as (Hf' & Hp' & token & Hfetch).
    rewrite navigate_when_processed by done.
    split; [done|]. by exists token.
  - unfold after. rewrite navigation_elsewhere by done. simpl.
    apply IH; try done.
    unfold landings in *. simpl in Hn. by rewrite Hl in Hn.
Qed.

(** On a working store and with the guard not yet set, for every sequence
    of navigation events in which the landing-path event fires two or more
    times and no event reports the landing path as a URL that [new URL]
    rejects, the whole sequence issues exactly one request, the GET of
    [{apiPrefix}/apps], and the guard is set afterwards. *)
Theorem landing_processed_once (P : Platform) (events : list jsstring) (w : World) :
  storage_faults w = [] ->
  loginProcessed (login w) = false ->
  Forall (reported_whole P) events ->
  (2 <= landings P events)%nat ->
  loginProcessed (login (navigate P events w)) = true /\
  exists req,
    fetched (navigate P events w) = fetched w ++ [req] /\
    method req = "GET" /\
    url req = current_apiPrefix w +:+ "/apps".
Proof.
  intros Hf Hp Hparse Hn.
  destruct (navigate_first_landing P events w Hf Hp Hparse) as (Hp' & token & Hfetch); [lia|].
  split; [done|]. eexists. split; [exact Hfetch|]. split; reflexivity.
Qed.

Lemma landing_processed_once_witness :
  loginProcessed (login (navigate cloud [Some redirect; Some redirect] (start ∅ [] 0))) = true /\
  exists req,
    fetched (navigate cloud [Some redirect; Some redirect] (start ∅ [] 0)) = [] ++ [req] /\
    method req = "GET" /\
    url req = "https://cloud.dify.ai/console/api/apps".
Proof.
  apply (landing_processed_once cloud [Some redirect; Some redirect] (start ∅ [] 0)).
  - reflexivity.
  - reflexivity.
  - repeat constructor; intros _ Hnone; discriminate Hnone.
  - apply le_n.
Defined.

Example duplicate_landing_scenario :
  fetched (navigate cloud [Some redirect; Some redirect] (start ∅ [] 0))
  = [mkRequest "GET" "https://cloud.dify.ai/console/api/apps" (Some "Bearer abc") None].
Proof. vm_compute. reflexivity. Qed.

Example redirect_scenario :
  let w := navigate cloud [Some redirect] (start ∅ [] 0) in
  storage w !! "auth_token" = Some "abc" /\
  storage w !! "refresh_token" = Some "def" /\
  instanceType (auth w) = "cloud" /\
  baseUrl (auth w) = "https://cloud.dify.ai" /\
  storage w !! "isAuthenticated" = Some "true".
Proof. vm_compute. done. Qed.

(** When the browser reports a URL that [new URL] rejects, the fallback
    sets the guard and fails on the same URL: no request is made, and
    the redirect that follows is ignored. *)
Example relative_url_uses_up_guard :
  let w := navigate cloud [Some "/apps?access_token=abc"; Some redirect; Some redirect]
             (start ∅ [] 0) in
  fetched w = [] /\ loginProcessed (login w) = true /\
  alerts (login w) = ["Failed to complete login process"].
Proof. vm_compute. done. Qed.

(** C7 fails on the code.  In a freshly started app the browser first
    reports the landing as the relative URL [/apps?access_token=abc], which
    [new URL] rejects, and then fires the landing-path event twice with the
    whole redirect URL.  The fallback for rejected URLs sets the one-shot
    guard and then parses the same URL again, which fails: the alert is
    shown and no request is made.  The guard stays set, so both landing
    events are ignored: the readiness GET is issued not once but never, no
    token is stored and the session is not authenticated. *)
Theorem C7_relative_url_blocks_landing :
  let events := [Some "/apps?access_token=abc"; Some redirect; Some redirect] in
  let w := navigate cloud events (start ∅ [] 0) in
  url_parse cloud "/apps?access_token=abc" = None /\
  includes "/apps" "/apps?access_token=abc" = true /\
  landings cloud events = 2%nat /\
  fetched w = [] /\
  loginProcessed (login w) = true /\
  alerts (login w) = ["Failed to complete login process"] /\
  storage w !! "auth_token" = None /\
  auth_flag w = false /\
  fetched (navigate cloud [Some redirect; Some redirect] (start ∅ [] 0))
  = [mkRequest "GET" "https://cloud.dify.ai/console/api/apps" (Some "Bearer abc") None].
Proof. vm_compute. done. Qed.


(** ** The guard under storage faults and arbitrary events *)

Lemma silent_ret {A} (a : A) : silent (ret a).
Proof. by intros w. Qed.

Lemma silent_throw {A} e : silent (@throw A e).
Proof. by intros w. Qed.

Lemma silent_gets {A} (f : World -> A) : silent (gets f).
Proof. by intros w. Qed.

Lemma silent_bind {A B} (m : M A) (k : A -> M B) :
  silent m -> (forall a, silent (k a)) -> silent (bind m k).
Proof.
  intros Hm Hk w. specialize (Hm w). unfold after, bind in *.
  destruct (m w) as [[a|e] w1]; simpl in Hm.
  - destruct (Hk a w1) as [H1 H2]. unfold after in H1, H2.
    destruct Hm. split; congruence.
  - done.
Qed.

Lemma silent_try_catch {A} (m : M A) (h : JsError -> M A) :
  silent m -> (forall e, silent (h e)) -> silent (try_catch m h).
Proof.
  intros Hm Hh w. specialize (Hm w). unfold after, try_catch in *.
  destruct (m w) as [[a|e] w1]; simpl in Hm.
  - done.
  - destruct (Hh e w1) as [H1 H2]. unfold after in H1, H2.
    destruct Hm. split; congruence.
Qed.

Lemma silent_when b (m : M unit) : silent m -> silent (when b m).
Proof. intros Hm. destruct b; [done|apply silent_ret]. Qed.

Lemma silent_modify (f : World -> World) :
  (forall w, fetched (f w) = fetched w /\
             loginProcessed (login (f w)) = loginProcessed (login w)) ->
  silent (modify f).
Proof. intros Hf w. apply Hf. Qed.

Lemma silent_setItem key value : silent (AsyncStorage.setItem key value).
Proof.
  destruct value as [v|]; [|apply silent_throw].
  intros [st fs au ck ft lg nv]. by destruct fs as [|[] fs].
Qed.

Lemma silent_alert msg : silent (LoginScreen.alert msg).
Proof. apply silent_modify. by intros [st fs au ck ft [] nv]. Qed.

Lemma silent_setInstanceType type : silent (Auth.setInstanceType type).
Proof.
  apply silent_try_catch; [|intros; apply silent_ret].
  apply silent_bind; [apply silent_setItem|intros _].
  apply silent_modify. by intros [].
Qed.

Lemma silent_setBaseUrl url : silent (Auth.setBaseUrl url).
Proof.
  apply silent_try_catch; [|intros; apply silent_ret].
  apply silent_bind; [apply silent_setItem|intros _].
  apply silent_modify. by intros [].
Qed.

Lemma silent_getApiPrefix : silent Auth.getApiPrefix.
Proof.
  apply silent_bind; [apply silent_gets|intros a].
  apply silent_bind; [|intros _; apply silent_gets].
  apply silent_when, silent_modify. by intros [].
Qed.

Lemma silent_setIsAuthenticated value : silent (Auth.setIsAuthenticated value).
Proof.
  apply silent_bind; [|intros _; apply silent_setItem].
  apply silent_modify. by intros [].
Qed.

Lemma silent_at_most_one {A} (m : M A) : silent m -> at_most_one m.
Proof. intros Hm w. destruct (Hm w). auto. Qed.

Lemma at_most_one_bind {A B} (m : M A) (k : A -> M B) :
  silent m -> (forall a, at_most_one (k a)) -> at_most_one (bind m k).
Proof.
  intros Hm Hk w. specialize (Hm w). unfold after, bind in *.
  destruct (m w) as [[a|e] w1]; simpl in Hm.
  - destruct (Hk a w1) as [H1 H2]. unfold after in H1, H2.
    destruct Hm as [E1 E2]. rewrite <- E1, <- E2. by split.
  - destruct Hm. auto.
Qed.

Lemma at_most_one_fetch {B} P req (k : Response -> M B) :
  (forall r, silent (k r)) -> at_most_one (bind (fetch P req) k).
Proof.
  intros Hk w. unfold after, bind, fetch.
  destruct (http P (fetched w) req) as [|r].
  - split; [right; by exists req|by destruct w].
  - destruct (Hk r (with_fetched (fun l => l ++ [req]) w)) as [H1 H2].
    unfold after in H1, H2. rewrite H1, H2.
    split; [right; by exists req|by destruct w].
Qed.

Lemma at_most_one_try_catch {A} (m : M A) (h : JsError -> M A) :
  at_most_one m -> (forall e, silent (h e)) -> at_most_one (try_catch m h).
Proof.
  intros Hm Hh w. specialize (Hm w). unfold after, try_catch in *.
  destruct (m w) as [[a|e] w1]; simpl in Hm.
  - done.
  - destruct (Hh e w1) as [H1 H2]. unfold after in H1, H2.
    rewrite H1, H2. done.
Qed.

Lemma complete_login_at_most_one P url : at_most_one (LoginScreen.complete_login P url).
Proof.
  apply at_most_one_try_catch; [|intros; apply silent_alert].
  apply at_most_one_bind.
  { unfold LoginScreen.new_URL. destruct (url_parse P url); [apply silent_ret|apply silent_throw]. }
  intros urlObj. apply at_most_one_bind.
  { apply silent_when. apply silent_bind; [apply silent_setItem|intros _].
    apply silent_bind; [apply silent_when, silent_setItem|intros _].
    apply silent_bind; [apply silent_setInstanceType|intros _; apply silent_setBaseUrl]. }
  intros _. apply at_most_one_bind; [apply silent_getApiPrefix|intros apiPrefix].
  apply at_most_one_fetch. intros response.
  apply silent_bind; [apply silent_when, silent_throw|intros _].
  apply silent_bind.
  { unfold response_json. destruct (json response); [apply silent_ret|apply silent_throw]. }
  intros apps. apply silent_bind; [apply silent_setIsAuthenticated|intros _].
  apply silent_bind; [apply silent_modify; by intros [st fs au ck ft [] nv]|intros _].
  apply silent_bind; [apply silent_setItem|intros _].
  apply silent_modify. by intros [st fs au ck ft [] nv].
Qed.

Lemma complete_login_returns P url w :
  exists w', LoginScreen.complete_login P url w = (Ok tt, w').
Proof.
  unfold LoginScreen.complete_login, try_catch.
  match goal with |- context [bind ?m ?k w] => destruct (bind m k w) as [[[]|err] w'] end.
  - by exists w'.
  - by eexists.
Qed.

(** One navigation event, whatever the store does: either no request is
    made, or the guard was unset, is set now, and one request was made. *)
Lemma navigation_guarded P e w :
  fetched (after (LoginScreen.handleWebViewNavigation P e) w) = fetched w \/
  (loginProcessed (login w) = false /\
   loginProcessed (login (after (LoginScreen.handleWebViewNavigation P e) w)) = true /\
   exists req,
     fetched (after (LoginScreen.handleWebViewNavigation P e) w) = fetched w ++ [req]).
Proof.
  destruct (loginProcessed (login w)) eqn:Hp.
  { left. unfold after. by rewrite navigation_when_processed. }
  destruct (complete_login_at_most_one P (default "" e)
              (with_login (set_loginProcessed true) w)) as [Hc1 Hc2].
  unfold after in Hc1, Hc2.
  assert (Hf1 : fetched (with_login (set_loginProcessed true) w) = fetched w)
    by (by destruct w).
  assert (Hp1 : loginProcessed (login (with_login (set_loginProcessed true) w)) = true)
    by (by destruct w as [? ? ? ? ? [] ?]).
  rewrite Hf1 in Hc1. rewrite Hp1 in Hc2.
  unfold after, LoginScreen.handleWebViewNavigation, try_catch, when, bind, gets, modify,
    LoginScreen.new_URL, ret, throw.
  destruct (truthy e); [|by left].
  destruct (url_parse P (default "" e)) as [u|].
  - destruct (String.eqb (pathname u) "/apps"); [|by left]. rewrite Hp.
    destruct (complete_login_returns P (default "" e)
                (with_login (set_loginProcessed true) w)) as [w2 Hw2].
    rewrite Hw2 in Hc1, Hc2 |- *. simpl in *.
    destruct Hc1 as [Hc1|Hc1]; [by left|by right].
  - rewrite Hp, andb_true_r.
    destruct (includes "/apps" (default "" e)); [|by left].
    destruct (complete_login_returns P (default "" e)
                (with_login (set_loginProcessed true) w)) as [w2 Hw2].
    rewrite Hw2 in Hc1, Hc2 |- *. simpl in *.
    destruct Hc1 as [Hc1|Hc1]; [by left|by right].
Qed.

(** Whatever events arrive and whichever storage calls reject, the login
    screen issues at most one request. *)
Lemma navigate_at_most_one_request P events w :
  (length (fetched (navigate P events w)) <= length (fetched w) + 1)%nat /\
  (loginProcessed (login w) = true -> fetched (navigate P events w) = fetched w).
Proof.
  split; [|intros Hp; by rewrite navigate_when_processed].
  revert w. induction events as [|e events IH]; intros w; [simpl; lia|].
  rewrite navigate_cons.
  destruct (navigation_guarded P e w) as [H|(_ & Hp' & req & H)].
  - specialize (IH (after (LoginScreen.handleWebViewNavigation P e) w)).
    rewrite H in IH. exact IH.
  - rewrite navigate_when_processed by done. rewrite H, length_app. simpl. lia.
Qed.

(** * Further properties *)

(** Symbolic execution of the handlers of this part; the truthiness tests
    and defaults applied to what was read are stated on the store. *)
Ltac exec :=
  cbv beta iota zeta delta
    [after result bind ret throw try_catch try_finally Promise_all2 modify gets when
     fetch response_json fst snd negb andb default from_option id
     AsyncStorage.setItem AsyncStorage.getItem AsyncStorage.faulty
     Auth.setInstanceType Auth.setBaseUrl Auth.getApiPrefix Auth.getPublicApiPrefix
     Auth.setIsAuthenticated Auth.checkAuthState Auth.setCookies Auth.getCookies
     Auth.getInstanceType Auth.getBaseUrl Auth.getToken Auth.getSignInUrl
     AppNavigator.mount AppNavigator.poll AppNavigator.shows_login
     AppSetupScreen.apiUrl
     LoginScreen.alert LoginScreen.new_URL LoginScreen.complete_login
     LoginScreen.handleCloudLogin LoginScreen.handleCustomLogin
     LoginScreen.handleWebViewMessage LoginScreen.Auth_setApiPrefixes
     with_storage with_faults with_auth with_login with_fetched with_nav
     storage storage_faults auth clock fetched login nav
     set_isAuthenticated set_instanceType set_apiPrefix set_publicApiPrefix
     set_cookies set_baseUrl
     set_showWebView set_webViewUrl set_loginProcessed add_alert add_replaced
     isAuthenticated instanceUrl instanceType apiPrefix publicApiPrefix cookies baseUrl
     showWebView showCustomDomain customDomain webViewUrl loginProcessed alerts replaced
     isLoading nav_isAuthenticated
     STORAGE_KEYS.AUTH_TOKEN STORAGE_KEYS.REFRESH_TOKEN STORAGE_KEYS.INSTANCE_URL
     STORAGE_KEYS.INSTANCE_TYPE STORAGE_KEYS.API_PREFIX STORAGE_KEYS.PUBLIC_API_PREFIX
     STORAGE_KEYS.COOKIES STORAGE_KEYS.BASE_URL INSTANCE_TYPES.CLOUD INSTANCE_TYPES.CUSTOM];
  rewrite ?truthy_resolved, ?or_else_resolved.

(** ** The API prefix accessors *)

(** [getApiPrefix()] never answers the empty string: it answers the
    prefix in memory, or the cloud default when there is none, and leaves
    that answer in memory, so that a second call answers the same and
    changes nothing.  It does not touch the store. *)
Theorem getApiPrefix_caches_default (w : World) :
  result Auth.getApiPrefix w = Ok (current_apiPrefix w) /\
  current_apiPrefix w <> "" /\
  after Auth.getApiPrefix w = with_auth (set_apiPrefix (current_apiPrefix w)) w /\
  Auth.getApiPrefix (after Auth.getApiPrefix w)
  = (Ok (current_apiPrefix w), after Auth.getApiPrefix w).
Proof.
  destruct w as [st fs [ia iu it ap pp co bu] ck ft lg nv].
  unfold result, after, current_apiPrefix, Auth.getApiPrefix, bind, gets, when, modify, ret.
  cbn [auth apiPrefix fst snd].
  destruct (String.eqb ap "") eqn:E; cbn [fst snd].
  - repeat split; done.
  - cbn. rewrite E. cbn. repeat split; try done. by apply String.eqb_neq.
Qed.

(** On a working store [setApiPrefix(a, p)] followed by the two getters:
    the public prefix is [p], or [a] when [p] is empty; the prefix is [a],
    or the cloud default when [a] is empty. *)
Theorem setApiPrefix_then_getters (a p : string) (w : World) :
  storage_faults w = [] ->
  let w' := after (Auth.setApiPrefix a (Some p)) w in
  result (Auth.setApiPrefix a (Some p)) w = Ok tt /\
  storage w' !! "api_prefix" = Some a /\
  storage w' !! "public_api_prefix" = Some (if String.eqb p "" then a else p) /\
  result Auth.getPublicApiPrefix w' = Ok (if String.eqb p "" then a else p) /\
  result Auth.getApiPrefix w'
  = Ok (if String.eqb a "" then "https://cloud.dify.ai/console/api" else a).
Proof.
  intros H. destruct w as [st fs au ck ft lg nv]. simpl in H. subst fs.
  unfold result, after, Auth.setApiPrefix, Auth.getPublicApiPrefix, Auth.getApiPrefix.
  cbn. repeat split.
  - rewrite lookup_insert_ne by done. by rewrite lookup_insert_eq.
  - by rewrite lookup_insert_eq.
  - destruct (String.eqb p "") eqn:Ep.
    + destruct (String.eqb a "") eqn:Ea; [|done].
      apply String.eqb_eq in Ea. by subst.
    + by rewrite Ep.
  - by destruct (String.eqb a "").
Qed.

Lemma setApiPrefix_then_getters_witness :
  result Auth.getPublicApiPrefix
    (after (Auth.setApiPrefix "https://x/console/api" (Some "")) (start ∅ [] 0))
  = Ok "https://x/console/api".
Proof.
  destruct (setApiPrefix_then_getters "https://x/console/api" "" (start ∅ [] 0) eq_refl)
    as (_ & _ & _ & H & _).
  exact H.
Defined.

(** ** Instance type and base URL *)

(** On a working store the instance type and the base URL written by their
    setters are what their getters answer, and what is in memory. *)
Theorem instance_round_trip (type url : string) (w : World) :
  storage_faults w = [] ->
  let w1 := after (Auth.setInstanceType type) w in
  let w2 := after (Auth.setBaseUrl url) w in
  result Auth.getInstanceType w1 = Ok type /\ instanceType (auth w1) = type /\
  result Auth.getBaseUrl w2 = Ok url /\ baseUrl (auth w2) = url.
Proof.
  intros H. destruct w as [st fs au ck ft lg nv]. simpl in H. subst fs.
  unfold result, after, Auth.setInstanceType, Auth.setBaseUrl,
    Auth.getInstanceType, Auth.getBaseUrl.
  cbn. rewrite !lookup_insert_eq. cbn.
  repeat split; try done.
  - rewrite or_else_resolved. cbn.
    by destruct (String.eqb type "") eqn:E; [apply String.eqb_eq in E; subst|].
  - rewrite or_else_resolved. cbn.
    by destruct (String.eqb url "") eqn:E; [apply String.eqb_eq in E; subst|].
Qed.

Lemma instance_round_trip_witness :
  result Auth.getInstanceType (after (Auth.setInstanceType "custom") (start ∅ [] 0))
  = Ok "custom".
Proof.
  destruct (instance_round_trip "custom" "https://d" (start ∅ [] 0) eq_refl) as (H & _).
  exact H.
Defined.

(** When the store rejects the write, [setInstanceType] and [setBaseUrl]
    still return normally, and neither the store nor the fields in memory
    change: the caller cannot tell that the value was lost. *)
Theorem instance_setters_swallow_rejection (type url : string) (w : World) (fs : list bool) :
  storage_faults w = true :: fs ->
  Auth.setInstanceType type w = (Ok tt, with_faults fs w) /\
  Auth.setBaseUrl url w = (Ok tt, with_faults fs w).
Proof.
  intros H. destruct w as [st fs0 au ck ft lg nv]. simpl in H. subst fs0.
  split; reflexivity.
Qed.

Lemma instance_setters_swallow_rejection_witness :
  result (Auth.setInstanceType "custom") (start ∅ [true] 0) = Ok tt /\
  storage (after (Auth.setInstanceType "custom") (start ∅ [true] 0)) !! "instance_type" = None /\
  instanceType (auth (after (Auth.setInstanceType "custom") (start ∅ [true] 0))) = "".
Proof.
  destruct (instance_setters_swallow_rejection "custom" "u" (start ∅ [true] 0) [] eq_refl)
    as [H _].
  unfold result, after. rewrite H. repeat split.
Defined.

(** ** Writes that fail *)

(** [setAuthTokens] sets the flag only after both writes succeeded: when
    it throws, the fields in memory are what they were. *)
Theorem setAuthTokens_flag_after_writes (accessToken refreshToken : jsstring) (w : World) :
  match result (Auth.setAuthTokens accessToken refreshToken) w with
  | Ok _ => isAuthenticated (auth (after (Auth.setAuthTokens accessToken refreshToken) w)) = true
  | Throw _ => auth (after (Auth.setAuthTokens accessToken refreshToken) w) = auth w
  end.
Proof.
  destruct w as [st fs au ck ft lg nv].
  destruct accessToken as [a|], refreshToken as [r|];
    destruct fs as [|[] [|[] fs]]; reflexivity.
Qed.

(** The two writes of [setAuthTokens] are not one: when the first succeeds
    and the second is rejected, the call throws with the new access token
    stored beside the old refresh token. *)
Theorem setAuthTokens_partial_write (a r : string) (w : World) (fs : list bool) :
  storage_faults w = false :: true :: fs ->
  let w' := after (Auth.setAuthTokens (Some a) (Some r)) w in
  result (Auth.setAuthTokens (Some a) (Some r)) w = Throw StorageError /\
  storage w' !! "auth_token" = Some a /\
  storage w' !! "refresh_token" = storage w !! "refresh_token" /\
  auth w' = auth w.
Proof.
  intros H. destruct w as [st fs0 au ck ft lg nv]. simpl in H. subst fs0.
  cbn. repeat split.
  - by rewrite lookup_insert_eq.
  - by rewrite lookup_insert_ne.
Qed.

Lemma setAuthTokens_partial_write_witness :
  let w := start (<["auth_token" := "old"]> (<["refresh_token" := "oldr"]> ∅)) [false; true] 0 in
  storage (after (Auth.setAuthTokens (Some "new") (Some "newr")) w) !! "auth_token" = Some "new" /\
  storage (after (Auth.setAuthTokens (Some "new") (Some "newr")) w) !! "refresh_token" = Some "oldr".
Proof.
  destruct (setAuthTokens_partial_write "new" "newr"
              (start (<["auth_token" := "old"]> (<["refresh_token" := "oldr"]> ∅)) [false; true] 0)
              [] eq_refl) as (_ & H1 & H2 & _).
  split; [exact H1 | exact H2].
Defined.

(** ** What [logout] keeps *)

(** [logout] removes its ten keys and no other: whatever else is stored
    (the onboarding flag, the API keys of apps, the conversations) is
    still stored afterwards, whether the removal succeeds or not; and the
    field [instanceUrl] is not reset. *)
Theorem logout_keeps_other_keys (key : string) (w : World) :
  key ∉ Auth.logout_keys ->
  storage (after Auth.logout w) !! key = storage w !! key /\
  instanceUrl (auth (after Auth.logout w)) = instanceUrl (auth w).
Proof.
  intros Hk. destruct w as [st fs au ck ft lg nv].
  destruct fs as [|[] fs]; cbn -[Auth.logout_keys]; split; try done.
  all: by apply lookup_foldr_delete_not_elem_of.
Qed.

Lemma logout_keeps_other_keys_witness :
  storage (after Auth.logout (start (<["hasOnboarded" := "true"]> ∅) [] 0)) !! "hasOnboarded"
  = Some "true".
Proof.
  destruct (logout_keeps_other_keys "hasOnboarded"
              (start (<["hasOnboarded" := "true"]> ∅) [] 0)) as [H _].
  - unfold Auth.logout_keys. rewrite !elem_of_cons, elem_of_nil.
    intros [H|[H|[H|[H|[H|[H|[H|[H|[H|[H|[]]]]]]]]]]]; discriminate H.
  - exact H.
Defined.

(** On a working store every key of [logout] is absent afterwards. *)
Lemma logout_removes_keys (key : string) (w : World) :
  storage_faults w = [] -> key ∈ Auth.logout_keys ->
  storage (after Auth.logout w) !! key = None.
Proof.
  intros H Hk. unfold after. rewrite logout_working by done.
  destruct w. cbn -[Auth.logout_keys]. by apply lookup_foldr_delete.
Qed.

(** ** [initialize], step by step *)

Lemma initialize_run P w :
  storage_faults w = [] -> Auth.initialize P w = initialized P w.
Proof.
  intros H. destruct w as [st fs au ck ft lg nv]. simpl in H. subst fs.
  unfold initialized, loaded_fields, Auth.initialize.
  unfold try_catch at 1. unfold bind at 1.
  cbn -[Auth.refreshAuthToken Auth.logout truthy or_else logged_out from_option].
  unfold STORAGE_KEYS.AUTH_TOKEN, STORAGE_KEYS.REFRESH_TOKEN, STORAGE_KEYS.COOKIES,
    STORAGE_KEYS.API_PREFIX, STORAGE_KEYS.INSTANCE_URL, STORAGE_KEYS.INSTANCE_TYPE,
    STORAGE_KEYS.PUBLIC_API_PREFIX, STORAGE_KEYS.BASE_URL, INSTANCE_TYPES.CLOUD.
  rewrite ?truthy_resolved, ?or_else_resolved, ?default_resolved.
  destruct (truthy (st !! "auth_token")) eqn:Etok; [|reflexivity].
  cbn [when]. unfold Auth.token_expired, bind at 1, try_catch at 1, bind at 1.
  destruct (jwt_exp P (default "" (st !! "auth_token"))) as [| |s] eqn:Ej.
  - cbn -[Auth.logout truthy or_else logged_out]. by rewrite logout_working.
  - reflexivity.
  - unfold bind at 1, gets at 1. unfold with_auth at 1. cbn [clock]. unfold ret at 1.
    destruct (s * 1000 <=? ck); [|reflexivity].
    cbn [when].
    destruct (truthy (st !! "refresh_token")) eqn:Ert.
    2: { cbn -[Auth.logout truthy or_else logged_out]. by rewrite logout_working. }
    unfold bind at 1.
    match goal with |- context [Auth.refreshAuthToken P ?rt ?w1] =>
      pose proof (refreshAuthToken_working P w1 rt eq_refl) as Hrw;
      unfold result, after in Hrw |- *;
      destruct (Auth.refreshAuthToken P rt w1) as [o w2] eqn:Eref
    end.
    destruct Hrw as [(_ & Hres & _) | (_ & Hres & _)]; simpl in Hres; subst o; reflexivity.
Qed.

Lemma refreshAuthToken_request P w refreshToken :
  storage_faults w = [] ->
  fetched (after (Auth.refreshAuthToken P refreshToken) w)
  = fetched w ++ [Auth.refresh_request (apiPrefix (auth w)) refreshToken].
Proof.
  intros H. unfold after, Auth.refreshAuthToken, try_catch, bind, gets, fetch.
  destruct (http P (fetched w) _) as [|resp]; simpl.
  { rewrite logout_working by done. by destruct w. }
  destruct (ok resp); simpl.
  2: { rewrite logout_working by done. by destruct w. }
  unfold response_json. destruct (json resp) as [d|]; simpl.
  2: { rewrite logout_working by done. by destruct w. }
  destruct w as [st fs au ck ft lg nv]. simpl in H. subst fs.
  unfold Auth.setAuthTokens, try_catch, bind, Promise_all2.
  destruct (access_token d), (refresh_token d); reflexivity.
Qed.

(** On a working store [initialize()] makes exactly one request, the
    refresh with the stored refresh token, when a non-empty token is
    stored, is expired and a non-empty refresh token is stored; in every
    other case it makes none. *)
Theorem initialize_requests (P : Platform) (w : World) :
  storage_faults w = [] ->
  fetched (after (Auth.initialize P) w)
  = fetched w ++
    (if refresh_due P w
     then [Auth.refresh_request (or_else (storage w !! "api_prefix") "")
                                (default "" (storage w !! "refresh_token"))]
     else []).
Proof.
  intros H. unfold after. rewrite initialize_run by done.
  unfold initialized, refresh_due.
  destruct (truthy (storage w !! "auth_token")); cbn [andb].
  2: { destruct w. cbn. by rewrite app_nil_r. }
  destruct (jwt_exp P _) as [| |s]; cbn [andb].
  1,2: destruct w; cbn -[Auth.logout_keys]; by rewrite app_nil_r.
  destruct (s * 1000 <=? clock w); cbn [andb].
  2: { destruct w. cbn. by rewrite app_nil_r. }
  destruct (truthy (storage w !! "refresh_token")).
  2: { destruct w. cbn -[Auth.logout_keys]. by rewrite app_nil_r. }
  cbn [snd]. rewrite refreshAuthToken_request by (by destruct w).
  by destruct w.
Qed.

Lemma initialize_requests_witness :
  fetched (after (Auth.initialize accepting) no_cookies)
  = [mkRequest "POST" "/oauth/token/refresh" None (Some "r")] /\
  fetched (after (Auth.initialize live) signed_in) = [].
Proof.
  split.
  - exact (initialize_requests accepting no_cookies eq_refl).
  - exact (initialize_requests live signed_in eq_refl).
Defined.

(** On a working store the boolean that [initialize()] returns is the flag
    it leaves in memory, and when that flag is true an access token is
    stored. *)
Theorem initialize_flag_has_token (P : Platform) (w : World) :
  storage_faults w = [] ->
  result (Auth.initialize P) w = Ok (isAuthenticated (auth (after (Auth.initialize P) w))) /\
  authenticated_has_token (after (Auth.initialize P) w).
Proof.
  intros H. unfold result, after, authenticated_has_token.
  rewrite initialize_run by done. unfold initialized.
  destruct (truthy (storage w !! "auth_token")) eqn:Etok.
  2: { destruct w. cbn in *. by rewrite Etok. }
  apply truthy_Some in Etok as (tok & Etok & _).
  destruct (jwt_exp P _) as [| |s].
  - destruct w. by cbn -[Auth.logout_keys].
  - destruct w. cbn in *. rewrite Etok. eauto.
  - destruct (s * 1000 <=? clock w).
    2: { destruct w. cbn in *. rewrite Etok. eauto. }
    destruct (truthy (storage w !! "refresh_token")).
    2: { destruct w. by cbn -[Auth.logout_keys]. }
    cbn [fst snd]. split; [done|].
    match goal with |- context [after (Auth.refreshAuthToken P ?rt) ?w1] =>
      destruct (refreshAuthToken_working P w1 rt) as [(Hacc & _ & Hauth) | (_ & _ & Hauth)];
      [by destruct w| |]
    end.
    + intros _. destruct Hacc as (resp & d & a & r & Hr & Hok & Hj & Ha & Ht).
      unfold after.
      erewrite refreshAuthToken_accepted by (first [by destruct w | eassumption]).
      cbn. rewrite lookup_insert_ne by done. rewrite lookup_insert_eq. eauto.
    + rewrite Hauth. discriminate.
Qed.

Lemma initialize_flag_has_token_witness :
  authenticated_has_token (after (Auth.initialize accepting) no_cookies).
Proof.
  destruct (initialize_flag_has_token accepting no_cookies eq_refl) as [_ H].
  exact H.
Defined.

(** When the store rejects one of the eight reads, [initialize()] answers
    false and changes neither the fields in memory, nor the store, nor
    the requests made.  When the reads succeed, token and cookies are
    stored, the token does not decode and the store rejects the removal,
    it answers false too, but the flag in memory is left true and the
    token is still stored: the answer and the flag disagree. *)
Theorem initialize_rejected_store (P : Platform) (w : World) :
  let w' := after (Auth.initialize P) w in
  (existsb id (take 8 (storage_faults w)) = true ->
   result (Auth.initialize P) w = Ok false /\
   auth w' = auth w /\ storage w' = storage w /\ fetched w' = fetched w) /\
  (forall fs tok,
     storage_faults w = replicate 8 false ++ true :: fs ->
     storage w !! "auth_token" = Some tok -> tok <> "" ->
     truthy (storage w !! "auth_cookies") = true ->
     jwt_exp P tok = DecodeThrows ->
     result (Auth.initialize P) w = Ok false /\
     isAuthenticated (auth w') = true /\ storage w' = storage w).
Proof.
  destruct w as [st fs0 au ck ft lg nv]. split.
  - cbn [storage_faults].
    destruct fs0 as [|[] [|[] [|[] [|[] [|[] [|[] [|[] [|[] fs0]]]]]]]];
      cbn [take existsb id orb]; intros Hf; try discriminate Hf; clear Hf.
    all: repeat split.
  - intros fs tok Hf Htok Hne Hck Hj. cbn in Hf, Htok, Hck. subst fs0.
    unfold Auth.initialize, Auth.token_expired, Auth.logout, AsyncStorage.multiRemove.
    exec. rewrite Htok, ?(resolved_nonempty tok Hne).
    apply String.eqb_neq in Hne.
    cbn [truthy default from_option id]. rewrite Hne, Hck, Hj.
    repeat split.
Qed.

Lemma initialize_rejected_store_witness :
  let P := mkPlatform (fun _ => DecodeThrows) (http offline) (url_parse offline) in
  let w := start (<["auth_token" := "abc"]> (<["auth_cookies" := "sid=1"]> ∅))
             (replicate 8 false ++ [true]) 0 in
  result (Auth.initialize offline) (start ∅ [false; true] 0) = Ok false /\
  result (Auth.initialize P) w = Ok false /\
  isAuthenticated (auth (after (Auth.initialize P) w)) = true.
Proof.
  destruct (initialize_rejected_store offline (start ∅ [false; true] 0)) as [H _].
  destruct (H eq_refl) as [H1 _].
  destruct (initialize_rejected_store
              (mkPlatform (fun _ => DecodeThrows) (http offline) (url_parse offline))
              (start (<["auth_token" := "abc"]> (<["auth_cookies" := "sid=1"]> ∅))
                 (replicate 8 false ++ [true]) 0)) as [_ H2].
  destruct (H2 [] "abc" eq_refl eq_refl) as (H3 & H4 & _);
    [discriminate|reflexivity|reflexivity|].
  split; [exact H1|split; [exact H3|exact H4]].
Defined.

(** ** [logout] and what follows it *)

Lemma logged_out_lookup (key : string) (w : World) :
  key ∈ Auth.logout_keys -> storage (logged_out w) !! key = None.
Proof.
  intros Hk. destruct w. cbn -[Auth.logout_keys]. by apply lookup_foldr_delete.
Qed.

(** On a working store, [logout()] followed by [initialize()]:
    [initialize] returns false, makes no request, and every field is the
    one that [initialize] gives to an empty store: the instance URL is
    the cloud one, the instance type is [cloud] and the prefixes, the
    cookies and the base URL are empty. *)
Theorem logout_then_initialize (P : Platform) (w : World) :
  storage_faults w = [] ->
  let w1 := after Auth.logout w in
  let w2 := after (Auth.initialize P) w1 in
  result (Auth.initialize P) w1 = Ok false /\
  auth w2 = mkAuth false CLOUD_INSTANCE_URL "cloud" "" "" "" "" /\
  fetched w2 = fetched w.
Proof.
  intros H w1 w2. subst w2 w1. unfold result, after.
  rewrite logout_working by done. cbn [fst snd].
  rewrite initialize_run by (by destruct w).
  unfold initialized, loaded_fields.
  rewrite !logged_out_lookup by (unfold Auth.logout_keys; set_solver).
  destruct w. by cbn.
Qed.

Lemma logout_then_initialize_witness :
  result (Auth.initialize live) (after Auth.logout signed_in) = Ok false.
Proof.
  destruct (logout_then_initialize live signed_in eq_refl) as [H _].
  exact H.
Defined.

(** ** What survives a restart *)

Lemma restart_working w : storage_faults (restart w) = [].
Proof. reflexivity. Qed.

Lemma setters_written (w : World) (a p t u c : string) :
  storage_faults w = [] ->
  let w1 := after (Auth.setCookies (Some c))
              (after (Auth.setBaseUrl u)
                 (after (Auth.setInstanceType t)
                    (after (Auth.setApiPrefix a (Some p)) w))) in
  isAuthenticated (auth w1) = true /\
  storage w1 = <["auth_cookies" := c]> (<["base_url" := u]> (<["instance_type" := t]>
                 (<["public_api_prefix" := or_else (Some p) a]>
                    (<["api_prefix" := a]> (storage w))))).
Proof.
  intros H. destruct w as [st fs au ck ft lg nv]. simpl in H. subst fs.
  split; reflexivity.
Qed.

Lemma or_else_Some (s d : string) : s <> "" -> or_else (Some s) d = s.
Proof. intros Hs. unfold or_else. apply String.eqb_neq in Hs. by rewrite Hs. Qed.

Lemma or_else_same (s : string) : or_else (Some s) "" = s.
Proof.
  unfold or_else. destruct (String.eqb s "") eqn:E; [|done].
  apply String.eqb_eq in E. by subst.
Qed.

(** The settings written through the setters are the ones [initialize()]
    loads when the app is started again; the flag that [setCookies] raised
    is not: with no access token stored, the restarted session is not
    authenticated. *)
Theorem settings_survive_restart (P : Platform) (w : World) (a p t u c : string) :
  storage_faults w = [] ->
  storage w !! "auth_token" = None ->
  let w1 := after (Auth.setCookies (Some c))
              (after (Auth.setBaseUrl u)
                 (after (Auth.setInstanceType t)
                    (after (Auth.setApiPrefix a (Some p)) w))) in
  let w2 := after (Auth.initialize P) (restart w1) in
  isAuthenticated (auth w1) = true /\
  result (Auth.initialize P) (restart w1) = Ok false /\
  isAuthenticated (auth w2) = false /\
  apiPrefix (auth w2) = a /\
  publicApiPrefix (auth w2) = (if String.eqb p "" then a else p) /\
  instanceType (auth w2) = (if String.eqb t "" then "cloud" else t) /\
  baseUrl (auth w2) = u /\
  cookies (auth w2) = c.
Proof.
  intros H Htok w1 w2.
  destruct (setters_written w a p t u c H) as [Hflag Hst]. fold w1 in Hflag, Hst.
  assert (Hrun : Auth.initialize P (restart w1)
                 = (Ok false, with_auth (fun _ => loaded_fields (storage w1)) (restart w1))).
  { assert (Hnone : storage w1 !! "auth_token" = None)
      by (rewrite Hst, !lookup_insert_ne by done; exact Htok).
    rewrite initialize_run by apply restart_working. unfold initialized.
    change (storage (restart w1)) with (storage w1).
    rewrite Hnone. cbn [truthy].
    unfold loaded_fields. cbn [auth with_auth isAuthenticated].
    by rewrite Hnone. }
  subst w2. unfold result, after at 1 2 3 4 5 6. rewrite Hrun. clear Hrun.
  cbn [fst snd with_auth auth restart start]. unfold loaded_fields.
  cbn [isAuthenticated apiPrefix publicApiPrefix instanceType baseUrl cookies].
  split; [exact Hflag|]. split; [done|].
  rewrite Hst. clear Hst Hflag. clearbody w1.
  split; [by rewrite !lookup_insert_ne, Htok by done|].
  repeat split; repeat (rewrite lookup_insert_eq || rewrite lookup_insert_ne by done).
  - apply or_else_same.
  - rewrite or_else_same. unfold or_else. by destruct (String.eqb p "").
  - unfold or_else. by destruct (String.eqb t "").
  - apply or_else_same.
  - apply or_else_same.
Qed.

Lemma settings_survive_restart_witness :
  let w1 := after (Auth.setCookies (Some "sid=1"))
              (after (Auth.setBaseUrl "https://d")
                 (after (Auth.setInstanceType "custom")
                    (after (Auth.setApiPrefix "https://d/console/api" (Some "https://d/api"))
                       (start ∅ [] 0)))) in
  isAuthenticated (auth w1) = true /\
  result (Auth.initialize offline) (restart w1) = Ok false.
Proof.
  destruct (settings_survive_restart offline (start ∅ [] 0)
              "https://d/console/api" "https://d/api" "custom" "https://d" "sid=1"
              eq_refl (lookup_empty _)) as (H1 & H2 & _).
  split; [exact H1 | exact H2].
Defined.

(** ** The persisted flag *)

Lemma setIsAuthenticated_working value w :
  storage_faults w = [] ->
  Auth.setIsAuthenticated value w
  = (Ok tt, with_storage (insert "isAuthenticated" (if value then "true" else "false"))
              (with_auth (set_isAuthenticated value) w)).
Proof.
  intros H. destruct w as [st fs au ck ft lg nv]. simpl in H. subst fs. reflexivity.
Qed.

(** On a working store, what [setIsAuthenticated] wrote is what
    [checkAuthState] answers, at once and after a restart, and the poller
    shows the login surface exactly when it is false. *)
Theorem flag_round_trip (value : bool) (w : World) :
  storage_faults w = [] ->
  let w' := after (Auth.setIsAuthenticated value) w in
  result (Auth.setIsAuthenticated value) w = Ok tt /\
  result Auth.checkAuthState w' = Ok value /\
  result Auth.checkAuthState (restart w') = Ok value /\
  AppNavigator.shows_login (after AppNavigator.poll w') = negb value.
Proof.
  intros H w'. subst w'. unfold result, after at 1 2 4.
  rewrite setIsAuthenticated_working by done. cbn [fst snd].
  set (w' := with_storage _ _).
  assert (Hw' : storage_faults w' = []) by (by destruct w).
  assert (Hkey : storage w' !! "isAuthenticated" = Some (if value then "true" else "false"))
    by (destruct w; apply lookup_insert_eq).
  assert (Hflag : auth_flag w' = value)
    by (unfold auth_flag; rewrite Hkey; by destruct value).
  split; [done|]. split; [|split].
  - by rewrite checkAuthState_working, Hflag.
  - rewrite checkAuthState_working by apply restart_working.
    cbn [fst]. unfold auth_flag. change (storage (restart w')) with (storage w').
    rewrite Hkey. by destruct value.
  - unfold AppNavigator.shows_login, AppNavigator.poll, after, bind.
    rewrite checkAuthState_working by done. rewrite Hflag.
    by destruct (storage w' !! "isAuthenticated").
Qed.

Lemma flag_round_trip_witness :
  result Auth.checkAuthState (restart (after (Auth.setIsAuthenticated true) (start ∅ [] 0)))
  = Ok true.
Proof.
  destruct (flag_round_trip true (start ∅ [] 0) eq_refl) as (_ & _ & H & _).
  exact H.
Defined.

(** On a working store [checkAuthState] leaves its answer in memory, so a
    second call answers the same and changes nothing; and after
    [logout()] the answer is false and the poller shows the login
    surface. *)
Theorem checkAuthState_settles (w : World) :
  storage_faults w = [] ->
  let w' := after Auth.checkAuthState w in
  isAuthenticated (auth w') = auth_flag w /\
  Auth.checkAuthState w' = (Ok (auth_flag w), w') /\
  result Auth.checkAuthState (after Auth.logout w) = Ok false /\
  AppNavigator.shows_login (after AppNavigator.poll (after Auth.logout w)) = true.
Proof.
  intros H. split; [|split; [|split]].
  - unfold after. rewrite checkAuthState_working by done. unfold auth_flag.
    destruct (AsyncStorage.resolved (storage w !! "isAuthenticated")); by destruct w.
  - unfold after. rewrite (checkAuthState_working w H).
    destruct (AsyncStorage.resolved (storage w !! "isAuthenticated")) as [s|] eqn:E; cbn [snd].
    + rewrite checkAuthState_working by (by destruct w).
      unfold auth_flag. destruct w as [st fs au ck ft lg nv]. cbn in *. by rewrite E.
    + rewrite (checkAuthState_working w H). by rewrite E.
  - unfold result, after at 1. rewrite logout_working by done. cbn [snd].
    rewrite checkAuthState_working by (by destruct w). unfold auth_flag.
    rewrite logged_out_lookup by (unfold Auth.logout_keys; set_solver).
    by destruct w.
  - unfold AppNavigator.shows_login, AppNavigator.poll, after, bind.
    rewrite logout_working by done. cbn [snd].
    rewrite checkAuthState_working by (by destruct w).
    assert (E : auth_flag (logged_out w) = false).
    { unfold auth_flag.
      rewrite logged_out_lookup by (unfold Auth.logout_keys; set_solver).
      by destruct w. }
    rewrite E.
    rewrite logged_out_lookup by (unfold Auth.logout_keys; set_solver).
    by destruct w.
Qed.

Lemma checkAuthState_settles_witness :
  result Auth.checkAuthState (after Auth.logout signed_in) = Ok false.
Proof.
  destruct (checkAuthState_settles signed_in eq_refl) as (_ & _ & H & _).
  exact H.
Defined.

(** The check made when the navigator mounts never throws and always ends
    the loading state.  When the read of the flag is rejected the surface
    stays as it was; otherwise it is the one [checkAuthState] chooses.  A
    rejected read in the interval callback, which has no handler, rejects
    and leaves the navigator as it was. *)
Theorem navigator_mount (w : World) :
  result AppNavigator.mount w = Ok tt /\
  isLoading (nav (after AppNavigator.mount w)) = false /\
  nav_isAuthenticated (nav (after AppNavigator.mount w))
  = match storage_faults w with
    | true :: _ => nav_isAuthenticated (nav w)
    | _ => auth_flag w
    end /\
  match storage_faults w with
  | true :: _ => result AppNavigator.poll w = Throw StorageError /\
                 nav (after AppNavigator.poll w) = nav w
  | _ => result AppNavigator.poll w = Ok tt
  end.
Proof.
  destruct w as [st fs au ck ft lg nv].
  unfold auth_flag.
  destruct fs as [|[] fs]; exec; try done.
  all: destruct (AsyncStorage.resolved (st !! "isAuthenticated")); exec; done.
Qed.

(** ** The stored token *)

(** [getToken] never throws: a rejected read answers null and changes
    nothing else.  On a working store it answers the access token that
    [setAuthTokens] stored, except that it answers null for the empty
    token, which the store reports as no value; and it answers null after
    [logout]. *)
Theorem getToken_round_trip (a r : string) (w : World) :
  (exists t, result Auth.getToken w = Ok t) /\
  (forall fs, storage_faults w = true :: fs ->
     Auth.getToken w = (Ok None, with_faults fs w)) /\
  (storage_faults w = [] ->
   result Auth.getToken (after (Auth.setAuthTokens (Some a) (Some r)) w)
   = Ok (if String.eqb a "" then None else Some a) /\
   result Auth.getToken (after Auth.logout w) = Ok None).
Proof.
  split; [|split].
  - destruct w as [st fs au ck ft lg nv]. destruct fs as [|[] fs]; by eexists.
  - intros fs H. destruct w as [st fs0 au ck ft lg nv]. simpl in H. by subst fs0.
  - intros H. split.
    + destruct w as [st fs au ck ft lg nv]. simpl in H. subst fs.
      unfold result, after. cbn. rewrite lookup_insert_ne by done.
      by rewrite lookup_insert_eq.
    + unfold result, after at 1. rewrite logout_working by done. cbn [snd].
      unfold Auth.getToken, try_catch, bind. rewrite getItem_working by (by destruct w).
      unfold STORAGE_KEYS.AUTH_TOKEN.
      by rewrite logged_out_lookup by (unfold Auth.logout_keys; set_solver).
Qed.

Lemma getToken_round_trip_witness :
  result Auth.getToken (after (Auth.setAuthTokens (Some "abc") (Some "def")) (start ∅ [] 0))
  = Ok (Some "abc") /\
  result Auth.getToken (after (Auth.setAuthTokens (Some "") (Some "def")) (start ∅ [] 0))
  = Ok None /\
  Auth.getToken (start ∅ [true] 0) = (Ok None, start ∅ [] 0).
Proof.
  destruct (getToken_round_trip "abc" "def" (start ∅ [] 0)) as (_ & H0 & H).
  destruct (H eq_refl) as [H1 _].
  destruct (getToken_round_trip "" "def" (start ∅ [] 0)) as (_ & _ & H').
  destruct (H' eq_refl) as [H2 _].
  destruct (getToken_round_trip "abc" "def" (start ∅ [true] 0)) as (_ & H3 & _).
  split; [exact H1|split; [exact H2|exact (H3 [] eq_refl)]].
Defined.

(** ** The login buttons *)

(** The cloud login never throws and always opens the browser on the cloud
    sign-in page, even when the instance type could not be stored; on a
    working store the instance type [cloud] is stored and in memory. *)
Theorem handleCloudLogin_opens_browser (w : World) :
  let w' := after LoginScreen.handleCloudLogin w in
  result LoginScreen.handleCloudLogin w = Ok tt /\
  showWebView (login w') = true /\
  webViewUrl (login w') = "https://cloud.dify.ai/signin" /\
  alerts (login w') = alerts (login w) /\
  (storage_faults w = [] ->
   storage w' !! "instance_type" = Some "cloud" /\ instanceType (auth w') = "cloud").
Proof.
  destruct w as [st fs au ck ft [sw sc cd wu lp al rp] nv].
  destruct fs as [|[] fs]; exec; repeat split; try done.
  all: by rewrite lookup_insert_eq.
Qed.

Lemma handleCloudLogin_opens_browser_witness :
  storage (after LoginScreen.handleCloudLogin (start ∅ [] 0)) !! "instance_type" = Some "cloud" /\
  webViewUrl (login (after LoginScreen.handleCloudLogin (start ∅ [true] 0)))
  = "https://cloud.dify.ai/signin".
Proof.
  destruct (handleCloudLogin_opens_browser (start ∅ [] 0)) as (_ & _ & _ & _ & H).
  destruct (H eq_refl) as [H1 _].
  destruct (handleCloudLogin_opens_browser (start ∅ [true] 0)) as (_ & _ & H2 & _).
  split; [exact H1 | exact H2].
Defined.

(** With no domain entered the custom login only shows its alert: the
    browser is not opened, nothing is stored and no field changes; with a
    domain entered it never throws and opens the browser. *)
Theorem handleCustomLogin_empty_domain (w : World) :
  result LoginScreen.handleCustomLogin w = Ok tt /\
  (customDomain (login w) = "" ->
   after LoginScreen.handleCustomLogin w
   = with_login (add_alert "Please enter your Dify instance domain") w) /\
  (customDomain (login w) <> "" ->
   showWebView (login (after LoginScreen.handleCustomLogin w)) = true /\
   alerts (login (after LoginScreen.handleCustomLogin w)) = alerts (login w)).
Proof.
  destruct w as [st fs au ck ft [sw sc cd wu lp al rp] nv].
  exec. destruct (String.eqb cd "") eqn:E.
  - apply String.eqb_eq in E. subst. by exec.
  - apply String.eqb_neq in E. destruct fs as [|[] fs]; by exec.
Qed.

Lemma handleCustomLogin_empty_domain_witness :
  alerts (login (after LoginScreen.handleCustomLogin (start ∅ [] 0)))
  = ["Please enter your Dify instance domain"] /\
  showWebView (login (after LoginScreen.handleCustomLogin
                        (with_login (set_customDomain "dify.example.com") (start ∅ [] 0))))
  = true.
Proof.
  split.
  - destruct (handleCustomLogin_empty_domain (start ∅ [] 0)) as (_ & H & _).
    by rewrite (H eq_refl).
  - destruct (handleCustomLogin_empty_domain
                (with_login (set_customDomain "dify.example.com") (start ∅ [] 0)))
      as (_ & _ & H).
    destruct H as [H _]; [discriminate|exact H].
Defined.

(** The normalized domain always begins with the letters http, a domain
    that begins with them is left as it is, and normalizing twice is
    normalizing once. *)
Theorem custom_domain_url_normal (customDomain : string) :
  startsWith "http" (LoginScreen.custom_domain_url customDomain) = true /\
  (startsWith "http" customDomain = true ->
   LoginScreen.custom_domain_url customDomain = customDomain) /\
  LoginScreen.custom_domain_url (LoginScreen.custom_domain_url customDomain)
  = LoginScreen.custom_domain_url customDomain.
Proof.
  unfold LoginScreen.custom_domain_url.
  destruct (startsWith "http" customDomain) eqn:E.
  - split; [done|]. split; [done|]. by rewrite E.
  - split; [reflexivity|]. split; [done|]. reflexivity.
Qed.

Lemma custom_domain_url_normal_witness :
  LoginScreen.custom_domain_url "http://10.0.0.2" = "http://10.0.0.2".
Proof.
  destruct (custom_domain_url_normal "http://10.0.0.2") as (_ & H & _).
  exact (H eq_refl).
Defined.

(** ** In-page messages *)

(** The message handler never throws.  On a working store a [COOKIES]
    message stores the cookies, leaves them in memory for [getCookies],
    and raises the flag; a message without cookies, a rejected write, or
    a message of another type leaves store and fields as they were. *)
Theorem handleWebViewMessage_cookies (data : WebViewMessage) (w : World) :
  result (LoginScreen.handleWebViewMessage data) w = Ok tt /\
  (forall c, data = COOKIES (Some c) -> storage_faults w = [] ->
     let w' := after (LoginScreen.handleWebViewMessage data) w in
     storage w' !! "auth_cookies" = Some c /\
     result Auth.getCookies w' = Ok c /\
     isAuthenticated (auth w') = true) /\
  (data = COOKIES None \/ (exists t, data = OtherMessage t) \/
   (exists fs, storage_faults w = true :: fs) ->
     storage (after (LoginScreen.handleWebViewMessage data) w) = storage w /\
     auth (after (LoginScreen.handleWebViewMessage data) w) = auth w).
Proof.
  destruct w as [st fs au ck ft lg nv].
  split; [|split].
  - destruct data as [[c|]|a p|t]; destruct fs as [|[] fs]; by exec.
  - intros c -> H. simpl in H. subst fs. exec.
    split; [by rewrite lookup_insert_eq|done].
  - intros [->|[[t ->]|[fs' H]]].
    + by exec.
    + by exec.
    + simpl in H. subst fs. destruct data as [[c|]|a p|t]; by exec.
Qed.

Lemma handleWebViewMessage_cookies_witness :
  result Auth.getCookies
    (after (LoginScreen.handleWebViewMessage (COOKIES (Some "sid=1"))) (start ∅ [] 0))
  = Ok "sid=1" /\
  storage (after (LoginScreen.handleWebViewMessage (COOKIES None)) (start ∅ [] 0)) = ∅.
Proof.
  split.
  - destruct (handleWebViewMessage_cookies (COOKIES (Some "sid=1")) (start ∅ [] 0))
      as (_ & H & _).
    destruct (H "sid=1" eq_refl eq_refl) as (_ & H2 & _). exact H2.
  - destruct (handleWebViewMessage_cookies (COOKIES None) (start ∅ [] 0)) as (_ & _ & H).
    destruct H as [H _]; [by left|exact H].
Defined.

(** ** The landing of the redirect *)

(** Runs the navigation handler on a landing URL from a state with a
    working store and the guard unset, up to the answer of the server.
    The property of the final state is kept aside as [post]. *)
Ltac land Hne Hu Hpath :=
  match goal with |- context [after ?m ?w] =>
    pattern (after m w);
    match goal with |- ?Q _ => set (post := Q) end
  end;
  unfold LoginScreen.handleWebViewNavigation, truthy;
  rewrite (proj2 (String.eqb_neq _ _) Hne);
  exec; rewrite Hu; exec; rewrite Hpath, String.eqb_refl; exec.

(** The access token of the landing URL, the instance type read off its
    host and its origin are stored before the server is asked: on a
    working store they are there afterwards whatever the server answers.
    A refresh token is stored when the URL carries a non-empty one. *)
Theorem landing_stores_session (P : Platform) (url : string) (u : URL) (a : string) (w : World) :
  storage_faults w = [] ->
  loginProcessed (login w) = false ->
  url <> "" -> url_parse P url = Some u -> pathname u = "/apps" ->
  searchParams_access_token u = Some a -> a <> "" ->
  let w' := after (LoginScreen.handleWebViewNavigation P (Some url)) w in
  storage w' !! "auth_token" = Some a /\
  storage w' !! "refresh_token"
  = (if truthy (searchParams_refresh_token u) then searchParams_refresh_token u
     else storage w !! "refresh_token") /\
  storage w' !! "instance_type"
  = Some (if String.eqb (hostname u) "cloud.dify.ai" then "cloud" else "custom") /\
  instanceType (auth w')
  = (if String.eqb (hostname u) "cloud.dify.ai" then "cloud" else "custom") /\
  storage w' !! "base_url" = Some (origin u) /\
  baseUrl (auth w') = origin u.
Proof.
  intros Hf Hp Hne Hu Hpath Ha Hane w'. subst w'.
  destruct w as [st fs [ia iu it ap pp co bu] ck ft [sw sc cd wu lp al rp] nv].
  simpl in Hf, Hp. subst fs lp.
  land Hne Hu Hpath.
  rewrite Ha. unfold truthy at 1. rewrite (proj2 (String.eqb_neq _ _) Hane). exec.
  destruct (truthy (searchParams_refresh_token u)) eqn:Href;
    [apply truthy_Some in Href as (r & Hr & _); rewrite Hr|]; exec.
  all: destruct (String.eqb ap ""); exec.
  all: match goal with |- context [http ?p ?l ?req] => destruct (http p l req) as [|resp] end;
    exec.
  all: try (destruct (ok resp); exec).
  all: try (destruct (json resp); exec).
  all: subst post; cbv beta; exec; rewrite ?Hr.
  all: repeat split;
    repeat (rewrite lookup_insert_eq || rewrite lookup_insert_ne by done); done.
Qed.

Lemma landing_stores_session_witness :
  let w' := after (LoginScreen.handleWebViewNavigation cloud (Some redirect)) (start ∅ [] 0) in
  storage w' !! "auth_token" = Some "abc" /\
  storage w' !! "refresh_token" = Some "def" /\
  storage w' !! "instance_type" = Some "cloud" /\
  instanceType (auth w') = "cloud" /\
  storage w' !! "base_url" = Some "https://cloud.dify.ai" /\
  baseUrl (auth w') = "https://cloud.dify.ai".
Proof.
  apply (landing_stores_session cloud redirect
           (mkURL "/apps" "cloud.dify.ai" "https://cloud.dify.ai" (Some "abc") (Some "def"))
           "abc" (start ∅ [] 0)); try reflexivity; discriminate.
Defined.

(** When the server answers the readiness request with a 2xx status and a
    JSON body, the login completes: the flag is persisted and in memory,
    so that [checkAuthState] answers true, the browser is closed, the body
    is cached under [apps], the screen is replaced and no alert is shown.
    This does not depend on the URL carrying an access token. *)
Theorem landing_success (P : Platform) (url : string) (u : URL) (resp : Response) (d : Json)
    (w : World) :
  storage_faults w = [] ->
  loginProcessed (login w) = false ->
  url <> "" -> url_parse P url = Some u -> pathname u = "/apps" ->
  http P (fetched w)
    (LoginScreen.apps_request (current_apiPrefix w) (searchParams_access_token u))
  = Resolved resp ->
  ok resp = true -> json resp = Some d ->
  let w' := after (LoginScreen.handleWebViewNavigation P (Some url)) w in
  storage w' !! "isAuthenticated" = Some "true" /\
  isAuthenticated (auth w') = true /\
  auth_flag w' = true /\
  showWebView (login w') = false /\
  storage w' !! "apps" = Some (stringify d) /\
  replaced (login w') = replaced (login w) ++ ["Login"] /\
  alerts (login w') = alerts (login w).
Proof.
  intros Hf Hp Hne Hu Hpath Hhttp Hok Hj w'. subst w'.
  destruct w as [st fs [ia iu it ap pp co bu] ck ft [sw sc cd wu lp al rp] nv].
  simpl in Hf, Hp. subst fs lp.
  unfold current_apiPrefix in Hhttp. cbn [auth apiPrefix fetched] in Hhttp.
  land Hne Hu Hpath.
  destruct (truthy (searchParams_access_token u)) eqn:Htok;
    [apply truthy_Some in Htok as (a & Ha & _); rewrite Ha in Hhttp |- *;
     destruct (truthy (searchParams_refresh_token u)) eqn:Href;
     [apply truthy_Some in Href as (r & Hr & _); rewrite Hr|]|]; exec.
  all: destruct (String.eqb ap ""); exec.
  all: rewrite Hhttp; exec; rewrite Hok; exec.
  all: destruct (json resp) as [d'|]; [injection Hj as ->|discriminate Hj]; exec.
  all: subst post; cbv beta; unfold auth_flag; exec.
  all: repeat (rewrite lookup_insert_eq || rewrite lookup_insert_ne by done).
  all: repeat split; done.
Qed.

Lemma landing_success_witness :
  let w' := after (LoginScreen.handleWebViewNavigation cloud (Some redirect)) (start ∅ [] 0) in
  storage w' !! "isAuthenticated" = Some "true" /\
  isAuthenticated (auth w') = true /\
  auth_flag w' = true /\
  showWebView (login w') = false /\
  storage w' !! "apps" = Some "[]" /\
  replaced (login w') = [] ++ ["Login"] /\
  alerts (login w') = [].
Proof.
  apply (landing_success cloud redirect
           (mkURL "/apps" "cloud.dify.ai" "https://cloud.dify.ai" (Some "abc") (Some "def"))
           (mkResponse 200 (Some (mkJson None None "[]"))) (mkJson None None "[]")
           (start ∅ [] 0)); try reflexivity; discriminate.
Defined.

(** When the readiness request fails (the fetch is rejected, the status is
    not 2xx, or the body is not JSON), the alert is shown and the login
    does not complete: the flag is neither persisted nor raised, the
    browser stays as it was and nothing is cached.  The guard stays set:
    no later navigation event issues a request, so the same screen cannot
    retry. *)
Theorem landing_failure (P : Platform) (url : string) (u : URL) (w : World) :
  storage_faults w = [] ->
  loginProcessed (login w) = false ->
  url <> "" -> url_parse P url = Some u -> pathname u = "/apps" ->
  (http P (fetched w)
     (LoginScreen.apps_request (current_apiPrefix w) (searchParams_access_token u))
   = Rejected \/
   exists resp,
     http P (fetched w)
       (LoginScreen.apps_request (current_apiPrefix w) (searchParams_access_token u))
     = Resolved resp /\ (ok resp = false \/ json resp = None)) ->
  let w' := after (LoginScreen.handleWebViewNavigation P (Some url)) w in
  alerts (login w') = alerts (login w) ++ ["Failed to complete login process"] /\
  storage w' !! "isAuthenticated" = storage w !! "isAuthenticated" /\
  storage w' !! "apps" = storage w !! "apps" /\
  isAuthenticated (auth w') = isAuthenticated (auth w) /\
  showWebView (login w') = showWebView (login w) /\
  loginProcessed (login w') = true /\
  (forall events, navigate P events w' = w').
Proof.
  intros Hf Hp Hne Hu Hpath Hhttp w'.
  assert (Hmain :
    alerts (login w') = alerts (login w) ++ ["Failed to complete login process"] /\
    storage w' !! "isAuthenticated" = storage w !! "isAuthenticated" /\
    storage w' !! "apps" = storage w !! "apps" /\
    isAuthenticated (auth w') = isAuthenticated (auth w) /\
    showWebView (login w') = showWebView (login w) /\
    loginProcessed (login w') = true).
  { subst w'.
    destruct w as [st fs [ia iu it ap pp co bu] ck ft [sw sc cd wu lp al rp] nv].
    simpl in Hf, Hp. subst fs lp.
    unfold current_apiPrefix in Hhttp. cbn [auth apiPrefix fetched] in Hhttp.
    land Hne Hu Hpath.
    destruct (truthy (searchParams_access_token u)) eqn:Htok;
      [apply truthy_Some in Htok as (a & Ha & _); rewrite Ha in Hhttp |- *;
       destruct (truthy (searchParams_refresh_token u)) eqn:Href;
       [apply truthy_Some in Href as (r & Hr & _); rewrite Hr|]|]; exec.
    all: destruct (String.eqb ap ""); exec.
    all: destruct Hhttp as [Hhttp | (resp & Hhttp & [Hbad|Hbad])]; rewrite Hhttp; exec;
      rewrite ?Hbad; exec; try (destruct (ok resp); exec; rewrite ?Hbad; exec).
    all: subst post; cbv beta; exec.
    all: repeat (rewrite lookup_insert_eq || rewrite lookup_insert_ne by done).
    all: repeat split; done. }
  destruct Hmain as (H1 & H2 & H3 & H4 & H5 & H6).
  repeat split; try done.
  intros events. by apply navigate_when_processed.
Qed.

Lemma landing_failure_witness :
  let P := mkPlatform (jwt_exp cloud) (fun _ _ => Resolved (mkResponse 500 None)) (url_parse cloud) in
  let w' := after (LoginScreen.handleWebViewNavigation P (Some redirect)) (start ∅ [] 0) in
  alerts (login w') = ["Failed to complete login process"] /\
  storage w' !! "isAuthenticated" = None /\
  loginProcessed (login w') = true.
Proof.
  destruct (landing_failure
              (mkPlatform (jwt_exp cloud) (fun _ _ => Resolved (mkResponse 500 None)) (url_parse cloud))
              redirect
              (mkURL "/apps" "cloud.dify.ai" "https://cloud.dify.ai" (Some "abc") (Some "def"))
              (start ∅ [] 0)) as (H1 & H2 & _ & _ & _ & H6 & _);
    try reflexivity; try discriminate.
  - right. eexists. split; [reflexivity|]. by left.
  - split; [exact H1|split; [exact H2|exact H6]].
Defined.

(** A URL that [new URL] rejects never leads to a request or to a change
    of the store or of the session fields.  When it contains [/apps] and
    the guard is unset, the fallback sets the guard and fails on the same
    URL with the alert, after which every later event is ignored. *)
Theorem unparsed_url_never_completes (P : Platform) (url : string) (w : World) :
  url_parse P url = None ->
  let w' := after (LoginScreen.handleWebViewNavigation P (Some url)) w in
  fetched w' = fetched w /\ storage w' = storage w /\ auth w' = auth w /\
  (includes "/apps" url = true -> url <> "" -> loginProcessed (login w) = false ->
   loginProcessed (login w') = true /\
   alerts (login w') = alerts (login w) ++ ["Failed to complete login process"] /\
   forall events, navigate P events w' = w').
Proof.
  intros Hu w'.
  assert (Hmain :
    fetched w' = fetched w /\ storage w' = storage w /\ auth w' = auth w /\
    (includes "/apps" url = true -> url <> "" -> loginProcessed (login w) = false ->
     loginProcessed (login w') = true /\
     alerts (login w') = alerts (login w) ++ ["Failed to complete login process"])).
  { subst w'.
    destruct w as [st fs au ck ft [sw sc cd wu lp al rp] nv].
    match goal with |- context [after ?m ?w] =>
      pattern (after m w);
      match goal with |- ?Q _ => set (post := Q) end
    end.
    unfold LoginScreen.handleWebViewNavigation, truthy.
    destruct (String.eqb url "") eqn:Hne; exec.
    { apply String.eqb_eq in Hne. subst url post. cbv beta. exec.
      split; [done|]. split; [done|]. split; [done|]. by intros _ Hnot. }
    rewrite Hu. exec.
    destruct (includes "/apps" url) eqn:Hinc, lp; exec; rewrite ?Hu; exec.
    all: subst post; cbv beta; exec; repeat split; done. }
  destruct Hmain as (H1 & H2 & H3 & H4).
  repeat split; try done.
  - by apply H4.
  - by apply H4.
  - intros events. apply navigate_when_processed. by apply H4.
Qed.

Lemma unparsed_url_never_completes_witness :
  let w' := after (LoginScreen.handleWebViewNavigation cloud (Some "/apps?access_token=abc"))
              (start ∅ [] 0) in
  fetched w' = [] /\ loginProcessed (login w') = true /\
  navigate cloud [Some redirect] w' = w'.
Proof.
  destruct (unparsed_url_never_completes cloud "/apps?access_token=abc" (start ∅ [] 0) eq_refl)
    as (H1 & _ & _ & H4).
  destruct H4 as (H5 & _ & H6); [reflexivity|discriminate|reflexivity|].
  split; [exact H1|split; [exact H5|exact (H6 [Some redirect])]].
Defined.

(** ** API keys of apps *)

Lemma apiUrl_working w :
  storage_faults w = [] ->
  AppSetupScreen.apiUrl w = (Ok (resolved_apiUrl w), w).
Proof.
  intros H. destruct w as [st fs au ck ft lg nv]. simpl in H. subst fs.
  unfold resolved_apiUrl. exec.
  by destruct (String.eqb (or_else (st !! "instance_type") "") "cloud").
Qed.

Lemma validateApiKey_refuses P appId apiKey w :
  ~ well_formed_key apiKey ->
  AppListScreen.validateApiKey P appId apiKey w = (Ok false, w).
Proof.
  unfold well_formed_key, AppListScreen.validateApiKey. intros Hbad.
  destruct (startsWith "app-" apiKey) eqn:Hs; [|done].
  destruct (String.length apiKey <? 20)%nat eqn:Hl; [done|].
  apply Nat.ltb_ge in Hl. by destruct Hbad.
Qed.

(** [validateApiKey] never throws.  It answers true only for a key that
    begins with [app-] and has at least twenty characters, and then the
    key is stored under the key of the app.  A key of another form is
    refused at once: no request is made and nothing is read or written. *)
Theorem validateApiKey_checks_format (P : Platform) (appId apiKey : string) (w : World) :
  let w' := after (AppListScreen.validateApiKey P appId apiKey) w in
  (exists b, result (AppListScreen.validateApiKey P appId apiKey) w = Ok b) /\
  (result (AppListScreen.validateApiKey P appId apiKey) w = Ok true ->
   well_formed_key apiKey /\
   storage w' !! AppListScreen.api_key_storage appId = Some apiKey) /\
  (~ well_formed_key apiKey ->
   AppListScreen.validateApiKey P appId apiKey w = (Ok false, w)).
Proof.
  unfold well_formed_key, AppListScreen.validateApiKey.
  destruct (startsWith "app-" apiKey) eqn:Hs.
  2: { exec. split; [by eexists|]. split; [done|]. done. }
  destruct (String.length apiKey <? 20)%nat eqn:Hl.
  { apply Nat.ltb_lt in Hl. exec. split; [by eexists|]. split; [done|].
    intros _. done. }
  apply Nat.ltb_ge in Hl.
  destruct w as [st fs au ck ft lg nv].
  split; [|split].
  - exec. destruct fs as [|[] fs]; exec.
    all: repeat match goal with
         | |- context [if ?b then _ else _] => destruct b; exec
         | |- context [http ?p ?l ?req] => destruct (http p l req) as [|resp]; exec
         | |- context [match ?l with [] => _ | _ :: _ => _ end] => destruct l as [|[] ?]; exec
         end; by eexists.
  - intros Hres. split; [done|]. revert Hres.
    exec. destruct fs as [|[] fs]; exec.
    all: repeat match goal with
         | |- context [if ?b then _ else _] => destruct b; exec
         | |- context [http ?p ?l ?req] => destruct (http p l req) as [|resp]; exec
         | |- context [match ?l with [] => _ | _ :: _ => _ end] => destruct l as [|[] ?]; exec
         end; try discriminate.
    all: intros _; apply lookup_insert_eq.
  - intros Hbad. destruct Hbad. split; [done|lia].
Qed.

(** A key of the right form and a server that answers every request with
    status 200. *)
Lemma validateApiKey_checks_format_witness :
  well_formed_key "app-0123456789abcdef" /\
  storage (after (AppListScreen.validateApiKey cloud "7" "app-0123456789abcdef") (start ∅ [] 0))
    !! "app_7_api_key" = Some "app-0123456789abcdef" /\
  AppListScreen.validateApiKey cloud "7" "sk-0123456789abcdefgh" (start ∅ [] 0)
  = (Ok false, start ∅ [] 0).
Proof.
  destruct (validateApiKey_checks_format cloud "7" "app-0123456789abcdef" (start ∅ [] 0))
    as (_ & H & _).
  destruct (H eq_refl) as [H1 H2].
  destruct (validateApiKey_checks_format cloud "7" "sk-0123456789abcdefgh" (start ∅ [] 0))
    as (_ & _ & H3).
  split; [exact H1|]. split; [exact H2|].
  apply H3. intros [Hbad _]. discriminate Hbad.
Defined.

Lemma validateApiKey_working P appId apiKey w :
  storage_faults w = [] ->
  startsWith "app-" apiKey = true ->
  (String.length apiKey <? 20)%nat = false ->
  AppListScreen.validateApiKey P appId apiKey w
  = match http P (fetched w) (AppListScreen.parameters_request (resolved_apiUrl w) apiKey) with
    | Rejected =>
        (Ok false, requested (AppListScreen.parameters_request (resolved_apiUrl w) apiKey) w)
    | Resolved resp =>
        if ok resp
        then (Ok true,
              with_storage (insert (AppListScreen.api_key_storage appId) apiKey)
                (requested (AppListScreen.parameters_request (resolved_apiUrl w) apiKey) w))
        else (Ok false,
              requested (AppListScreen.parameters_request (resolved_apiUrl w) apiKey) w)
    end.
Proof.
  intros H Hs Hl. unfold AppListScreen.validateApiKey. rewrite Hs, Hl.
  unfold try_catch at 1. cbn [when negb]. unfold bind at 1, ret at 1.
  unfold bind at 1, ret at 1. unfold bind at 1.
  rewrite apiUrl_working by done. unfold bind at 1, fetch, requested.
  destruct (http P (fetched w) _) as [|resp]; [done|].
  destruct (ok resp); [|done].
  destruct w as [st fs au ck ft lg nv]. simpl in H. subst fs. reflexivity.
Qed.

(** On a working store [validateApiKey] answers true exactly when the key
    is well formed and the server answers the probe of
    [{apiUrl}/parameters], sent with the key as bearer, with a 2xx status;
    a well-formed key costs exactly that one request. *)
Theorem validateApiKey_accepts (P : Platform) (appId apiKey : string) (w : World) :
  storage_faults w = [] ->
  let probe := AppListScreen.parameters_request (resolved_apiUrl w) apiKey in
  (result (AppListScreen.validateApiKey P appId apiKey) w = Ok true <->
   well_formed_key apiKey /\
   exists resp, http P (fetched w) probe = Resolved resp /\ ok resp = true) /\
  (well_formed_key apiKey ->
   fetched (after (AppListScreen.validateApiKey P appId apiKey) w) = fetched w ++ [probe]).
Proof.
  intros H probe.
  pose proof (validateApiKey_refuses P appId apiKey w) as Hbad.
  unfold well_formed_key in *. unfold result, after.
  destruct (startsWith "app-" apiKey) eqn:Hs.
  2: { rewrite Hbad by (by intros [? _]).
       split; [|by intros [? _]]. split; [done|]. by intros [[? _] _]. }
  destruct (String.length apiKey <? 20)%nat eqn:Hl.
  { apply Nat.ltb_lt in Hl. rewrite Hbad by (intros [_ ?]; lia).
    split; [|intros [_ ?]; lia]. split; [done|]. intros [[_ ?] _]. lia. }
  clear Hbad. rewrite validateApiKey_working by done. fold probe.
  apply Nat.ltb_ge in Hl.
  destruct (http P (fetched w) probe) as [|resp] eqn:Hhttp.
  { split; [|by destruct w]. split; [done|]. by intros (_ & resp & [=] & _). }
  destruct (ok resp) eqn:Hok.
  - split; [|by destruct w]. split; [|done]. intros _. split; [done|]. by exists resp.
  - split; [|by destruct w]. split; [done|].
    intros (_ & resp' & [= <-] & Hok'). congruence.
Qed.

Lemma validateApiKey_accepts_witness :
  result (AppListScreen.validateApiKey cloud "7" "app-0123456789abcdef") (start ∅ [] 0) = Ok true.
Proof.
  destruct (validateApiKey_accepts cloud "7" "app-0123456789abcdef" (start ∅ [] 0) eq_refl)
    as [H _].
  apply H. split; [split; [reflexivity|apply le_n]|].
  eexists. split; reflexivity.
Defined.

Lemma validateApiKey_returns P appId apiKey w :
  exists b w', AppListScreen.validateApiKey P appId apiKey w = (Ok b, w').
Proof.
  unfold AppListScreen.validateApiKey, try_catch.
  match goal with |- context [bind ?m ?k w] => destruct (bind m k w) as [[b|e] w'] end;
    by eexists _, _.
Qed.

Lemma validateApiKey_true_well_formed P appId apiKey w w' :
  AppListScreen.validateApiKey P appId apiKey w = (Ok true, w') -> well_formed_key apiKey.
Proof.
  intros Hres. unfold well_formed_key.
  destruct (startsWith "app-" apiKey) eqn:Hs.
  - destruct (String.length apiKey <? 20)%nat eqn:Hl.
    + apply Nat.ltb_lt in Hl.
      rewrite validateApiKey_refuses in Hres by (unfold well_formed_key; intros [_ ?]; lia).
      discriminate Hres.
    + apply Nat.ltb_ge in Hl. done.
  - rewrite validateApiKey_refuses in Hres by (unfold well_formed_key; rewrite Hs; by intros [? _]).
    discriminate Hres.
Qed.

Lemma apiUrl_returns w : exists x w', AppSetupScreen.apiUrl w = (Ok x, w').
Proof.
  unfold AppSetupScreen.apiUrl, Auth.getInstanceType, Auth.getPublicApiPrefix,
    bind, try_catch, gets, ret.
  destruct (AsyncStorage.getItem STORAGE_KEYS.INSTANCE_TYPE w) as [[t|e] w1].
  - destruct (String.eqb (or_else t "") "cloud"); by eexists _, _.
  - destruct (String.eqb "" "cloud"); by eexists _, _.
Qed.

(** A press on an app.  When the read of the stored key is rejected, the
    handler itself rejects: its catch block names [Alert], which the file
    does not import, so no alert is shown.  When that read succeeds the
    handler never throws.  The chat is opened only for the pressed app,
    only with the key that is stored for it, and only when that key is well
    formed; on a working store, an app without a stored key ends in the
    API-key dialog with no request made and nothing changed. *)
Theorem handleAppPress_outcomes (P : Platform) (appId : string) (w : World) :
  (forall fs, storage_faults w = true :: fs ->
     AppListScreen.handleAppPress P appId w
     = (Throw (ReferenceError "Alert"), with_faults fs w)) /\
  ((forall fs, storage_faults w <> true :: fs) ->
     exists r, result (AppListScreen.handleAppPress P appId) w = Ok r) /\
  (forall apiUrl app key,
     result (AppListScreen.handleAppPress P appId) w = Ok (OpenWelcome apiUrl app key) ->
     app = appId /\
     storage w !! AppListScreen.api_key_storage appId = Some key /\
     well_formed_key key) /\
  (storage_faults w = [] ->
   truthy (storage w !! AppListScreen.api_key_storage appId) = false ->
   AppListScreen.handleAppPress P appId w = (Ok (AskApiKey appId), w)).
Proof.
  assert (Hrej : forall fs, storage_faults w = true :: fs ->
            AppListScreen.handleAppPress P appId w
            = (Throw (ReferenceError "Alert"), with_faults fs w)).
  { intros fs H. destruct w as [st fs0 au ck ft lg nv]. simpl in H. by subst fs0. }
  assert (Hget : (forall fs, storage_faults w <> true :: fs) ->
            exists w0, AsyncStorage.getItem (AppListScreen.api_key_storage appId) w
            = (Ok (AsyncStorage.resolved (storage w !! AppListScreen.api_key_storage appId)),
               w0)).
  { intros Hok. destruct w as [st fs0 au ck ft lg nv].
    destruct fs0 as [|[] fs0]; [by eexists| |by eexists].
    by destruct (Hok fs0). }
  split; [exact Hrej|]. split; [|split].
  - intros Hok. destruct (Hget Hok) as [w0 Hw0].
    unfold result, AppListScreen.handleAppPress, try_catch. unfold bind at 1.
    rewrite Hw0.
    destruct (truthy (AsyncStorage.resolved _)); cbn [negb]; [|by eexists].
    unfold bind at 1.
    match goal with |- context [AppListScreen.validateApiKey P appId ?k w0] =>
      destruct (validateApiKey_returns P appId k w0) as (b & w1 & Hv)
    end.
    rewrite Hv. destruct b; cbn [negb]; [|by eexists].
    unfold bind. destruct (apiUrl_returns w1) as (x & w2 & Hx). rewrite Hx. by eexists.
  - intros apiUrl app key.
    assert (Hcase : (exists fs, storage_faults w = true :: fs) \/
                    (forall fs, storage_faults w <> true :: fs)).
    { destruct (storage_faults w) as [|[] fs]; [by right|left; by exists fs|by right]. }
    destruct Hcase as [[fs Hfs]|Hok].
    { unfold result. by rewrite (Hrej fs Hfs). }
    destruct (Hget Hok) as [w0 Hw0].
    unfold result, AppListScreen.handleAppPress, try_catch. unfold bind at 1.
    rewrite Hw0.
    destruct (truthy (AsyncStorage.resolved _)) eqn:Hk; cbn [negb]; [|discriminate].
    apply truthy_Some in Hk as (stored & Hst & _). rewrite Hst.
    apply resolved_Some_iff in Hst as [Hst _].
    cbn [default from_option id]. unfold bind at 1.
    destruct (validateApiKey_returns P appId stored w0) as (b & w1 & Hv). rewrite Hv.
    destruct b; cbn [negb]; [|discriminate].
    apply validateApiKey_true_well_formed in Hv.
    unfold bind. destruct (AppSetupScreen.apiUrl w1) as [[x|e] w2]; [|discriminate].
    intros [= <- <- <-]. done.
  - intros H Hk. unfold AppListScreen.handleAppPress, try_catch, bind.
    rewrite getItem_working by done. by rewrite truthy_resolved, Hk.
Qed.

Lemma handleAppPress_outcomes_witness :
  AppListScreen.handleAppPress cloud "7" (start ∅ [] 0) = (Ok (AskApiKey "7"), start ∅ [] 0) /\
  AppListScreen.handleAppPress cloud "7" (start ∅ [true] 0)
  = (Throw (ReferenceError "Alert"), start ∅ [] 0) /\
  well_formed_key "app-0123456789abcdef".
Proof.
  split; [|split].
  - destruct (handleAppPress_outcomes cloud "7" (start ∅ [] 0)) as (_ & _ & _ & H).
    apply H; reflexivity.
  - destruct (handleAppPress_outcomes cloud "7" (start ∅ [true] 0)) as (H & _).
    exact (H [] eq_refl).
  - destruct (handleAppPress_outcomes cloud "7"
                (start (<["app_7_api_key" := "app-0123456789abcdef"]> ∅) [] 0))
      as (_ & _ & H & _).
    destruct (H "" "7" "app-0123456789abcdef") as (_ & _ & Hwf).
    + vm_compute. reflexivity.
    + exact Hwf.
Defined.

(** ** The account screen *)

(** The confirmed logout, on a working store, logs out and goes to the
    login screen; when the store rejects the removal it shows the alert
    and the session stays exactly as it was, still authenticated if it
    was. *)
Theorem logoutPressed_outcome (w : World) :
  (storage_faults w = [] ->
   AccountScreen.logoutPressed w = (Ok WentToLogin, logged_out w) /\
   isAuthenticated (auth (logged_out w)) = false /\
   auth_flag (logged_out w) = false) /\
  (forall fs, storage_faults w = true :: fs ->
   AccountScreen.logoutPressed w = (Ok LogoutFailed, with_faults fs w)).
Proof.
  split.
  - intros H. unfold AccountScreen.logoutPressed, try_catch, bind.
    rewrite logout_working by done. split; [done|]. split; [by destruct w|].
    unfold auth_flag. rewrite logged_out_lookup by (unfold Auth.logout_keys; set_solver).
    by destruct w.
  - intros fs H. destruct w as [st fs0 au ck ft lg nv]. simpl in H. subst fs0. reflexivity.
Qed.

Lemma logoutPressed_outcome_witness :
  result AccountScreen.logoutPressed signed_in = Ok WentToLogin /\
  AccountScreen.logoutPressed (with_faults [true] signed_in) = (Ok LogoutFailed, signed_in).
Proof.
  destruct (logoutPressed_outcome signed_in) as [H1 _].
  destruct (H1 eq_refl) as [H1' _].
  destruct (logoutPressed_outcome (with_faults [true] signed_in)) as [_ H2].
  split.
  - unfold result. by rewrite H1'.
  - exact (H2 [] eq_refl).
Defined.

Lemma or_else_nonempty (v : jsstring) (d : string) : d <> "" -> or_else v d <> "".
Proof.
  intros Hd. unfold or_else. destruct v as [s|]; [|done].
  destruct (String.eqb s "") eqn:E; [done|]. by apply String.eqb_neq.
Qed.

(** Loading the account information never fails and never shows an empty
    field, whichever reads are rejected, and it writes nothing.  On a
    working store the public API URL shown is the public prefix in
    memory, or else the prefix that [getApiPrefix] answers, the cloud
    default included; the API URL shown is that one too, unless the stored
    instance type is [cloud]. *)
Theorem loadAccountInfo_shows (w : World) :
  exists info,
    result AccountScreen.loadAccountInfo w = Ok (Some info) /\
    storage (after AccountScreen.loadAccountInfo w) = storage w /\
    info_baseUrl info <> "" /\ info_instanceType info <> "" /\
    info_apiUrl info <> "" /\ info_publicApiUrl info <> "" /\
    (storage_faults w = [] ->
     info_publicApiUrl info
     = (if String.eqb (publicApiPrefix (auth w)) "" then current_apiPrefix w
        else publicApiPrefix (auth w)) /\
     info_apiUrl info
     = (if String.eqb (or_else (storage w !! "instance_type") "") "cloud"
        then "https://api.dify.ai/v1" else info_publicApiUrl info)).
Proof.
  destruct w as [st fs [ia iu it ap pp co bu] ck ft lg nv].
  unfold AccountScreen.loadAccountInfo, current_apiPrefix.
  destruct fs as [|[] [|[] fs]]; exec.
  all: destruct (String.eqb ap "") eqn:Eap; exec.
  all: eexists; split; [reflexivity|]; split; [reflexivity|].
  all: cbn [info_baseUrl info_instanceType info_apiUrl info_publicApiUrl].
  all: repeat (split; [by apply or_else_nonempty|]).
  all: intros H; try discriminate H.
  all: destruct (String.eqb (or_else (st !! "instance_type") "") "cloud") eqn:Ecl.
  all: destruct (String.eqb pp "") eqn:Epp.
  all: unfold or_else; rewrite ?Epp, ?Eap; cbn; rewrite ?Epp, ?Eap.
  all: split; reflexivity.
Qed.

Lemma loadAccountInfo_shows_witness :
  result AccountScreen.loadAccountInfo
    (after (Auth.setInstanceType "custom") (start ∅ [] 0))
  = Ok (Some (mkAccountInfo "Unknown" "custom" "https://cloud.dify.ai/console/api"
                            "https://cloud.dify.ai/console/api")).
Proof.
  destruct (loadAccountInfo_shows (after (Auth.setInstanceType "custom") (start ∅ [] 0)))
    as (info & H & _).
  rewrite H. vm_compute in H. injection H as <-. reflexivity.
Defined.

(** ** Onboarding *)

(** On a working store, once the onboarding was skipped the root component
    finds it so, at once, after a restart and after a logout, and starts
    on the app list; over a store without the flag, or when the read is
    rejected, it starts on the onboarding. *)
Theorem onboarding_round_trip (w : World) :
  (storage_faults w = [] ->
   let w' := after OnboardingScreen.handleSkip w in
   result OnboardingScreen.handleSkip w = Ok "AppList" /\
   result App.checkOnboardingStatus w' = Ok true /\
   result App.checkOnboardingStatus (restart w') = Ok true /\
   result App.checkOnboardingStatus (after Auth.logout w') = Ok true /\
   App.initialRouteName true = "AppList") /\
  ((storage w !! "hasOnboarded" = None \/ exists fs, storage_faults w = true :: fs) ->
   result App.checkOnboardingStatus w = Ok false /\
   App.initialRouteName false = "Onboarding").
Proof.
  split.
  - intros H. destruct w as [st fs au ck ft lg nv]. simpl in H. subst fs.
    unfold OnboardingScreen.handleSkip, App.checkOnboardingStatus, restart, start.
    unfold after at 1 2 3. unfold result. exec.
    rewrite !lookup_insert_eq. repeat split.
    unfold Auth.logout, AsyncStorage.multiRemove. exec.
    rewrite lookup_foldr_delete_not_elem_of
      by (unfold Auth.logout_keys; rewrite !elem_of_cons, elem_of_nil; intuition discriminate).
    by rewrite lookup_insert_eq.
  - intros Hw. destruct w as [st fs au ck ft lg nv]. cbn in Hw.
    unfold App.checkOnboardingStatus. 
    destruct Hw as [Hw|[fs' ->]]; [|by exec].
    destruct fs as [|[] fs]; exec; by rewrite ?Hw.
Qed.

Lemma onboarding_round_trip_witness :
  result App.checkOnboardingStatus
    (after Auth.logout (after OnboardingScreen.handleSkip signed_in)) = Ok true /\
  result App.checkOnboardingStatus (start ∅ [] 0) = Ok false.
Proof.
  destruct (onboarding_round_trip signed_in) as [H _].
  destruct (H eq_refl) as (_ & _ & _ & H1 & _).
  destruct (onboarding_round_trip (start ∅ [] 0)) as [_ H2].
  destruct H2 as [H2 _]; [left; apply lookup_empty|].
  split; [exact H1 | exact H2].
Defined.
